(** * CodeChecker [store] handler: a shallow embedding of
      [libcodechecker/libhandlers/store.py] and the properties of its
      bundle assembly and upload sequence.

    The handler is Python 2 code: a [str] is a byte string, so file
    contents, digests, run names and the encoded payload are all modelled
    as [string].  Dictionaries are [gmap]s (their iteration order is as
    unspecified as a Python 2 dict's), the disk is a [gmap] from paths to
    nodes, exceptions are an explicit outcome, and the calls the handler
    makes to its collaborators are recorded in a trace. *)

From Stdlib Require Import ZArith NArith List String Ascii DecimalString.
From stdpp Require Import base gmap strings list fin_maps.

Local Open Scope string_scope.
Local Open Scope list_scope.

(** ** Python [str] helpers *)

Module Str.

(** [s.startswith(p)] *)
Definition startswith (s p : string) : bool := String.prefix p s.

(** [s.endswith(suffix)] *)
Definition endswith (s suffix : string) : bool :=
  let n := String.length s in
  let k := String.length suffix in
  (k <=? n)%nat && String.eqb (String.substring (n - k) k s) suffix.

(** [s.lstrip('/')] *)
Fixpoint lstrip_slash (s : string) : string :=
  match s with
  | String "/"%char rest => lstrip_slash rest
  | _ => s
  end.

(** [sep.join(l)] *)
Definition join (sep : string) (l : list string) : string :=
  String.concat sep l.

(** A byte string of [n] copies of [c]. *)
Fixpoint replicate (n : nat) (c : ascii) : string :=
  match n with
  | O => ""
  | S n' => String c (replicate n' c)
  end.

End Str.

(** ** [os.path] (posixpath) *)

Module Path.

(** [os.path.join(a, b)]: an absolute second component replaces the
    first one. *)
Definition join (a b : string) : string :=
  if Str.startswith b "/" then b
  else if String.eqb a "" || Str.endswith a "/" then a +:+ b
  else a +:+ "/" +:+ b.

End Path.

(** ** [base64.b64encode] (RFC 4648, standard alphabet, padded) *)

Module Base64.

Definition alphabet : string :=
  "ABCDEFGHIJKLMNOPQRSTUVWXYZabcdefghijklmnopqrstuvwxyz0123456789+/".

Definition digit (n : N) : ascii :=
  match String.get (N.to_nat n) alphabet with
  | Some c => c
  | None => "="%char
  end.

Definition pad : ascii := "="%char.

Fixpoint b64encode (s : string) : string :=
  match s with
  | EmptyString => ""
  | String a EmptyString =>
      let x := N_of_ascii a in
      String (digit (x / 4))
        (String (digit ((x mod 4) * 16)) (String pad (String pad "")))
  | String a (String b EmptyString) =>
      let x := N_of_ascii a in
      let y := N_of_ascii b in
      String (digit (x / 4))
        (String (digit ((x mod 4) * 16 + y / 16))
           (String (digit ((y mod 16) * 4)) (String pad "")))
  | String a (String b (String c rest)) =>
      let x := N_of_ascii a in
      let y := N_of_ascii b in
      let z := N_of_ascii c in
      String (digit (x / 4))
        (String (digit ((x mod 4) * 16 + y / 16))
           (String (digit ((y mod 16) * 4 + z / 64))
              (String (digit (z mod 64)) (b64encode rest))))
  end.

End Base64.

(** ** The disk, exceptions and the interpreter state *)

(** A path names a regular file with its bytes, or a directory with the
    names [os.walk] reports as the non-directory entries immediately
    below it (sub-directories are never descended into). *)
Inductive node :=
  | File (content : string)
  | Dir (files : list string).

(** Python exceptions the handler can see.  [SystemExit] (raised by
    [sys.exit]) derives from [BaseException] only, so an
    [except Exception] clause does not catch it. *)
Inductive exc :=
  | OSError (errno : Z) (strerror filename : string)
  | Error (msg : string)
  | SystemExit (code : Z).

Definition is_Exception (e : exc) : bool :=
  match e with
  | SystemExit _ => false
  | _ => true
  end.

Inductive outcome (A : Type) :=
  | Return (a : A)
  | Raise (e : exc).
Arguments Return {A} a.
Arguments Raise {A} e.

(** One archive member: the name it is stored under (the [arcname]
    argument as the handler passes it) and its bytes. *)
Record zip_entry := ZipEntry { arcname : string; data : string }.

(** Calls that leave the handler: RPCs, the report parser, the hasher and
    the temporary file's creation and removal. *)
Inductive event :=
  | GetCurrentProduct
  | CheckPermission (product_id : Z)
  | SetupClient (product_url : string)
  | Mkstemp (path : string)
  | ParsePlist (plist_file : string)
  | Sha256 (path : string)
  | GetMissingContentHashes (hashes : list string)
  | MassStoreRun (name : string) (tag : option string)
      (version b64zip : string) (force : bool)
  | Remove (path : string).

(** The store the handler runs on: the disk, the trace of outgoing calls,
    and the three objects [assemble_zip] mutates in place (the open
    archive and the two closure dictionaries). *)
Record state := State {
  fs : gmap string node;
  trace : list event;
  zipf : list zip_entry;
  hash_to_file : gmap string string;
  file_to_hash : gmap string string
}.

Definition init_state (disk : gmap string node) : state :=
  State disk [] [] ∅ ∅.

(** ** The collaborators *)

(** Everything the handler imports and calls but does not define.  A
    collaborator that can fail answers with an [outcome]. *)
Record Env := {
  check_zlib : bool;
  abspath : string -> string;
  json_load : string -> outcome (gmap string string);
  json_dumps : gmap string string -> string;
  split_product_url : string -> outcome (string * string * string * string);
  getCurrentProduct : outcome Z;
  check_permission : Z -> outcome bool;
  setup_client : string -> outcome unit;
  mkstemp : gmap string node -> string;
  parse_plist : string -> option (list string);
  sha256_hexdigest : string -> string;
  getMissingContentHashes : list string -> outcome (list string);
  massStoreRun :
    string -> option string -> string -> string -> bool -> outcome unit;
  zip_bytes : list zip_entry -> string;
  zlib_compress : string -> string;
  context_version : string
}.

(** ** A state-and-exception monad for the handler's control flow *)

Definition M (A : Type) : Type := state -> outcome A * state.

Definition ret {A} (a : A) : M A := fun s => (Return a, s).

Definition bind {A B} (m : M A) (k : A -> M B) : M B :=
  fun s =>
    match m s with
    | (Return a, s') => k a s'
    | (Raise e, s') => (Raise e, s')
    end.

Definition raise {A} (e : exc) : M A := fun s => (Raise e, s).

Definition lift {A} (o : outcome A) : M A := fun s => (o, s).

Definition get {A} (proj : state -> A) : M A := fun s => (Return (proj s), s).

Definition emit (ev : event) : M unit :=
  fun s =>
    (Return tt,
     State (fs s) (trace s ++ [ev]) (zipf s) (hash_to_file s) (file_to_hash s)).

Definition set_fs (f : gmap string node -> gmap string node) : M unit :=
  fun s =>
    (Return tt,
     State (f (fs s)) (trace s) (zipf s) (hash_to_file s) (file_to_hash s)).

(** [try: m except Exception as ex: h ex] *)
Definition try_except {A} (m : M A) (h : exc -> M A) : M A :=
  fun s =>
    match m s with
    | (Raise e, s') => if is_Exception e then h e s' else (Raise e, s')
    | r => r
    end.

(** [try: m finally: f]; an exception of [f] replaces the pending one. *)
Definition try_finally {A} (m : M A) (f : M unit) : M A :=
  fun s =>
    let (r, s') := m s in
    match f s' with
    | (Return _, s'') => (r, s'')
    | (Raise e, s'') => (Raise e, s'')
    end.

Declare Scope py_scope.
Delimit Scope py_scope with py.
Notation "x <- m ;; k" := (bind m (fun x => k))
  (at level 100, m at next level, right associativity) : py_scope.
Notation "m ;;; k" := (bind m (fun _ => k))
  (at level 100, right associativity) : py_scope.
Local Open Scope py_scope.

(** [for x in l: body x] *)
Fixpoint for_each {A} (l : list A) (body : A -> M unit) : M unit :=
  match l with
  | [] => ret tt
  | x :: rest => body x ;;; for_each rest body
  end.

(** ** [os] and [zipfile] primitives *)

Definition exists_ (disk : gmap string node) (p : string) : bool :=
  bool_decide (is_Some (disk !! p)).

Definition isfile (disk : gmap string node) (p : string) : bool :=
  match disk !! p with
  | Some (File _) => true
  | _ => false
  end.

Definition isdir (disk : gmap string node) (p : string) : bool :=
  match disk !! p with
  | Some (Dir _) => true
  | _ => false
  end.

(** [open(p).read()] *)
Definition read_file (p : string) : M string :=
  fun s =>
    match fs s !! p with
    | Some (File c) => (Return c, s)
    | Some (Dir _) => (Raise (OSError 21 "Is a directory" p), s)
    | None => (Raise (OSError 2 "No such file or directory" p), s)
    end.

(** [open(p, 'wb').write(c)] *)
Definition write_file (p c : string) : M unit :=
  fun s =>
    match fs s !! p with
    | Some (Dir _) => (Raise (OSError 21 "Is a directory" p), s)
    | _ => set_fs (insert p (File c)) s
    end.

(** [next(os.walk(p), ([], [], []))], third component. *)
Definition walk_files (disk : gmap string node) (p : string) : list string :=
  match disk !! p with
  | Some (Dir names) => names
  | _ => []
  end.

(** [zipf.write(filename, arcname)]: the member is read from disk when it
    is added; a directory is stored as an empty member whose name ends in
    a slash.  The entry keeps the [arcname] argument as the handler
    passes it; the name [zipfile] then stores is that argument
    normalised, without leading slashes, and the failures of [zipfile]
    other than a file that is not there are not modelled. *)
Definition zipf_write (filename arc : string) : M unit :=
  fun s =>
    match fs s !! filename with
    | Some (File c) =>
        (Return tt,
         State (fs s) (trace s) (zipf s ++ [ZipEntry arc c])
           (hash_to_file s) (file_to_hash s))
    | Some (Dir _) =>
        (Return tt,
         State (fs s) (trace s) (zipf s ++ [ZipEntry (arc +:+ "/") ""])
           (hash_to_file s) (file_to_hash s))
    | None => (Raise (OSError 2 "No such file or directory" filename), s)
    end.

(** [zipf.writestr(arcname, data)] *)
Definition zipf_writestr (arc bytes : string) : M unit :=
  fun s =>
    (Return tt,
     State (fs s) (trace s) (zipf s ++ [ZipEntry arc bytes])
       (hash_to_file s) (file_to_hash s)).

(** ** The handler *)

Definition MAX_UPLOAD_SIZE : N := 1 * 1024 * 1024 * 1024.

(** The parsed command line.  [name], [tag] and [force] default to
    [argparse.SUPPRESS]: they are attributes of [args] only when given
    ([force] is a [store_true] flag, so only its presence matters).  The
    default of [input] is a single string, not a list. *)
Record Args := {
  input : string + list string;
  name : option string;
  tag : option string;
  force : bool;
  product_url : string
}.

Definition input_list (args : Args) : list string :=
  match input args with
  | inl s => [s]
  | inr l => l
  end.

Section Handler.

Variable E : Env.

(** The loop of [__get_run_name], with [names] as its accumulator. *)
Fixpoint collect_names (inputs names : list string) : M (list string) :=
  match inputs with
  | [] => ret names
  | input_path :: rest =>
      let metafile := Path.join input_path "metadata.json" in
      disk <- get fs ;;
      if isdir disk input_path && exists_ disk metafile then
        content <- read_file metafile ;;
        metajson <- lift (json_load E content) ;;
        match metajson !! "name" with
        | Some n => collect_names rest (names ++ [n])
        | None => collect_names rest (names ++ ["unnamed result folder"])
        end
      else collect_names rest names
  end.

(** [__get_run_name]; the [False] it returns is [None] here. *)
Definition __get_run_name (inputs : list string) : M (option string) :=
  names <- collect_names inputs [] ;;
  match names with
  | [n] =>
      if negb (String.eqb n "unnamed result folder") then ret (Some n)
      else ret None
  | _ :: _ :: _ =>
      ret (Some ("multiple projects: " +:+ Str.join ", " names))
  | [] => ret None
  end.

(** The loop of [collect_file_hashes_from_plist] over the files a
    report references. *)
Fixpoint hash_files (files : list string) : M bool :=
  match files with
  | [] => ret true
  | f :: rest =>
      disk <- get fs ;;
      if negb (isfile disk f) then ret false
      else
        content <- read_file f ;;
        emit (Sha256 f) ;;;
        let content_hash := sha256_hexdigest E content in
        (fun s =>
           (Return tt,
            State (fs s) (trace s) (zipf s)
              (<[content_hash := f]> (hash_to_file s))
              (<[f := content_hash]> (file_to_hash s)))) ;;;
        hash_files rest
  end.

(** [plist_parser.parse_plist(plist_file)], first component. *)
Definition parse_plist_file (plist_file : string) : M (list string) :=
  emit (ParsePlist plist_file) ;;;
  content <- read_file plist_file ;;
  match parse_plist E content with
  | Some files => ret files
  | None => raise (Error "plist")
  end.

(** The [except] branch logs and falls off the end of the function, so
    the caller sees [None], which is false. *)
Definition collect_file_hashes_from_plist (plist_file : string) : M bool :=
  try_except
    (files <- parse_plist_file plist_file ;; hash_files files)
    (fun _ => ret false).

(** Body of the inner [for f in files] loop of [assemble_zip]. *)
Definition add_file (input_path f : string) : M unit :=
  let plist_file := Path.join input_path f in
  if Str.endswith f ".plist" then
    ok <- collect_file_hashes_from_plist plist_file ;;
    if ok then zipf_write plist_file (Path.join "reports" f)
    else ret tt
  else if String.eqb f "metadata.json" then
    zipf_write plist_file (Path.join "reports" f)
  else ret tt.

(** Body of the outer [for input_path in inputs] loop. *)
Definition add_input (raw : string) : M unit :=
  let input_path := abspath E raw in
  disk <- get fs ;;
  if negb (exists_ disk input_path) then
    raise (OSError 2 "Input path does not exist" input_path)
  else
    let files :=
      if isfile disk input_path then [input_path]
      else walk_files disk input_path in
    for_each files (add_file input_path).

(** Body of the loop over [file_to_hash.items()]. *)
Definition add_content (necessary_hashes : list string)
    (item : string * string) : M unit :=
  let (f, h) := item in
  if bool_decide (h ∈ necessary_hashes) then
    zipf_write f (Path.join "root" (Str.lstrip_slash f))
  else ret tt.

(** Body of the [with zipfile.ZipFile(...) as zipf] block. *)
Definition fill_zip (inputs : list string) : M unit :=
  for_each inputs add_input ;;;
  h2f <- get hash_to_file ;;
  let keys := (map_to_list h2f).*1 in
  emit (GetMissingContentHashes keys) ;;;
  necessary_hashes <- lift (getMissingContentHashes E keys) ;;
  f2h <- get file_to_hash ;;
  for_each (map_to_list f2h) (add_content necessary_hashes) ;;;
  f2h' <- get file_to_hash ;;
  zipf_writestr "content_hashes.json" (json_dumps E f2h').

(** Leaving the [with] block closes the archive, which writes it out,
    whether the block ended normally or not. *)
Definition zipf_close (zip_file : string) : M unit :=
  entries <- get zipf ;;
  write_file zip_file (zip_bytes E entries).

Definition assemble_zip (inputs : list string) (zip_file : string)
    : M unit :=
  (fun s => (Return tt, State (fs s) (trace s) [] ∅ ∅)) ;;;
  try_finally (fill_zip inputs) (zipf_close zip_file) ;;;
  source <- read_file zip_file ;;
  write_file zip_file (zlib_compress E source).

(** Python truth value of what [__get_run_name] returned. *)
Definition truthy (generated : option string) : bool :=
  match generated with
  | Some n => negb (String.eqb n "")
  | None => false
  end.

(** The [if 'name' not in args] block of [main]; returns [args.name]. *)
Definition run_name (args : Args) : M string :=
  match name args with
  | Some n => ret n
  | None =>
      generated <- __get_run_name (input_list args) ;;
      match generated with
      | Some n => if truthy generated then ret n else raise (SystemExit 2)
      | None => raise (SystemExit 2)
      end
  end.

(** [os.stat(p).st_size]; the handler only stats the bundle, a regular
    file. *)
Definition st_size (p : string) : M N :=
  content <- read_file p ;;
  ret (N.of_nat (String.length content)).

(** [os.remove(p)] *)
Definition os_remove (p : string) : M unit :=
  emit (Remove p) ;;;
  (fun s =>
     match fs s !! p with
     | Some (File _) => set_fs (delete p) s
     | Some (Dir _) => (Raise (OSError 21 "Is a directory" p), s)
     | None => (Raise (OSError 2 "No such file or directory" p), s)
     end).

(** The [try] suite of [main]. *)
Definition upload (args : Args) (run : string) (zip_file : string)
    : M unit :=
  assemble_zip (input_list args) zip_file ;;;
  size <- st_size zip_file ;;
  if (MAX_UPLOAD_SIZE <? size)%N then raise (SystemExit 1)
  else
    b64zip <- (zf <- read_file zip_file ;; ret (Base64.b64encode zf)) ;;
    emit (MassStoreRun run (tag args) (context_version E) b64zip
            (force args)) ;;;
    lift (massStoreRun E run (tag args) (context_version E) b64zip
            (force args)).

(** The [try]/[except Exception]/[finally] statement of [main]. *)
Definition store (args : Args) (run : string) (zip_file : string)
    : M unit :=
  try_finally
    (try_except (upload args run zip_file)
       (fun _ => raise (SystemExit 1)))
    (os_remove zip_file).

(** [main].  Logging is left out, and so are the constructors of the
    product and authentication clients, [setup_product_client] and
    [setup_auth_client], which are neither recorded in the trace nor
    able to fail here; the calls made through the clients are. *)
Definition main (args : Args) : M unit :=
  (if negb (check_zlib E)
   then raise (Error "zlib is not available on the system!")
   else ret tt) ;;;
  run <- run_name args ;;
  _ <- lift (split_product_url E (product_url args)) ;;
  emit GetCurrentProduct ;;;
  product_id <- lift (getCurrentProduct E) ;;
  emit (CheckPermission product_id) ;;;
  has_perm <- lift (check_permission E product_id) ;;
  (if negb has_perm then raise (SystemExit 1) else ret tt) ;;;
  emit (SetupClient (product_url args)) ;;;
  lift (setup_client E (product_url args)) ;;;
  disk <- get fs ;;
  let zip_file := mkstemp E disk in
  emit (Mkstemp zip_file) ;;;
  set_fs (insert zip_file (File "")) ;;;
  store args run zip_file.

End Handler.

(** ** Reading a trace *)

(** Report parsing and hashing, the calls of the collection loop. *)
Definition is_hashing (ev : event) : bool :=
  match ev with
  | ParsePlist _ | Sha256 _ => true
  | _ => false
  end.

(** The paths of the hashing calls of a trace, in order. *)
Fixpoint hashed (tr : list event) : list string :=
  match tr with
  | [] => []
  | Sha256 f :: rest => f :: hashed rest
  | _ :: rest => hashed rest
  end.

(** The hash lists of the [getMissingContentHashes] calls of a trace. *)
Fixpoint queries (tr : list event) : list (list string) :=
  match tr with
  | [] => []
  | GetMissingContentHashes keys :: rest => keys :: queries rest
  | _ :: rest => queries rest
  end.

(** The trace a computation added to the one it started from. *)
Definition since (s s' : state) : list event :=
  drop (length (trace s)) (trace s').

(** The calls [main] makes up to and including the permission check
    and the client set-up. *)
Definition is_prelude (ev : event) : bool :=
  match ev with
  | GetCurrentProduct | CheckPermission _ | SetupClient _ => true
  | _ => false
  end.

(** The calls of the [try] suite of [main]. *)
Definition is_upload (ev : event) : bool :=
  match ev with
  | ParsePlist _ | Sha256 _ | GetMissingContentHashes _
  | MassStoreRun _ _ _ _ _ => true
  | _ => false
  end.

(** Everything that counts as bundling work: the temporary file, report
    parsing, hashing, the reconciliation RPC and the store RPC. *)
Definition bundling_event (ev : event) : bool :=
  match ev with
  | GetCurrentProduct | CheckPermission _ | SetupClient _ => false
  | _ => true
  end.

Definition with_event (s : state) (ev : event) : state :=
  State (fs s) (trace s ++ [ev]) (zipf s) (hash_to_file s) (file_to_hash s).

(** ** What an assembly is expected to produce *)

(** The bytes of a regular file; empty for anything else. *)
Definition content (disk : gmap string node) (p : string) : string :=
  match disk !! p with
  | Some (File c) => c
  | _ => ""
  end.

(** The hash the handler records for a path. *)
Definition digest (E : Env) (disk : gmap string node) (p : string) : string :=
  sha256_hexdigest E (content disk p).

(** The two dictionaries after hashing [files] in order, starting from
    [m]: plain assignments, the later one overwriting the earlier. *)
Definition record_h2f (E : Env) (disk : gmap string node)
    (files : list string) (m : gmap string string) : gmap string string :=
  foldl (fun m f => <[digest E disk f := f]> m) m files.

Definition record_f2h (E : Env) (disk : gmap string node)
    (files : list string) (m : gmap string string) : gmap string string :=
  foldl (fun m f => <[f := digest E disk f]> m) m files.

(** One step of the collection loop: the disk is untouched, the trace
    grows by parsing and hashing calls only, and the dictionaries record
    exactly the hashed paths, each a regular file. *)
Definition hashing (E : Env) (s s' : state) : Prop :=
  fs s' = fs s /\
  exists evs : list event,
    trace s' = trace s ++ evs /\
    Forall (fun ev => is_hashing ev = true) evs /\
    Forall (fun f => isfile (fs s) f = true) (hashed evs) /\
    hash_to_file s' = record_h2f E (fs s) (hashed evs) (hash_to_file s) /\
    file_to_hash s' = record_f2h E (fs s) (hashed evs) (file_to_hash s).

(** A step that touches nothing but the open archive. *)
Definition quiet (s s' : state) : Prop :=
  fs s' = fs s /\ trace s' = trace s /\
  hash_to_file s' = hash_to_file s /\ file_to_hash s' = file_to_hash s.

(** A report document survives when it parses and every file it
    references is a regular file. *)
Definition survives (E : Env) (disk : gmap string node) (plist_file : string)
    : bool :=
  match disk !! plist_file with
  | Some (File c) =>
      match parse_plist E c with
      | Some files => forallb (isfile disk) files
      | None => false
      end
  | _ => false
  end.

(** The member [zipf.write(filename, arc)] adds. *)
Definition member (disk : gmap string node) (filename arc : string)
    : list zip_entry :=
  match disk !! filename with
  | Some (File c) => [ZipEntry arc c]
  | Some (Dir _) => [ZipEntry (arc +:+ "/") ""]
  | None => []
  end.

(** The report and metadata members one directory entry contributes. *)
Definition file_entries (E : Env) (disk : gmap string node)
    (input_path f : string) : list zip_entry :=
  let plist_file := Path.join input_path f in
  if Str.endswith f ".plist" then
    if survives E disk plist_file
    then member disk plist_file (Path.join "reports" f)
    else []
  else if String.eqb f "metadata.json" then
    member disk plist_file (Path.join "reports" f)
  else [].

(** The names the inner loop of [assemble_zip] iterates over. *)
Definition listed (disk : gmap string node) (input_path : string)
    : list string :=
  if isfile disk input_path then [input_path]
  else walk_files disk input_path.

Definition input_entries (E : Env) (disk : gmap string node) (raw : string)
    : list zip_entry :=
  flat_map (file_entries E disk (abspath E raw)) (listed disk (abspath E raw)).

Definition report_entries (E : Env) (disk : gmap string node)
    (inputs : list string) : list zip_entry :=
  flat_map (input_entries E disk) inputs.

(** The content member one item of [file_to_hash] contributes. *)
Definition content_entry (disk : gmap string node)
    (necessary_hashes : list string) (item : string * string)
    : list zip_entry :=
  if bool_decide (item.2 ∈ necessary_hashes)
  then member disk item.1 (Path.join "root" (Str.lstrip_slash item.1))
  else [].

Definition content_entries (disk : gmap string node)
    (necessary_hashes : list string) (f2h : gmap string string)
    : list zip_entry :=
  flat_map (content_entry disk necessary_hashes) (map_to_list f2h).

(** The manifest member. *)
Definition manifest (E : Env) (f2h : gmap string string) : zip_entry :=
  ZipEntry "content_hashes.json" (json_dumps E f2h).

(** The files of a report that get hashed: those before the first one
    that is not a regular file. *)
Fixpoint regular_prefix (disk : gmap string node) (files : list string)
    : list string :=
  match files with
  | [] => []
  | f :: rest =>
      if isfile disk f then f :: regular_prefix disk rest else []
  end.

(** The paths hashed while one report document is processed. *)
Definition plist_hashed (E : Env) (disk : gmap string node)
    (plist_file : string) : list string :=
  match disk !! plist_file with
  | Some (File c) =>
      match parse_plist E c with
      | Some files => regular_prefix disk files
      | None => []
      end
  | _ => []
  end.

Definition file_hashed (E : Env) (disk : gmap string node)
    (input_path f : string) : list string :=
  if Str.endswith f ".plist"
  then plist_hashed E disk (Path.join input_path f)
  else [].

(** The paths hashed during an assembly, in the order they are hashed. *)
Definition hashed_paths (E : Env) (disk : gmap string node)
    (inputs : list string) : list string :=
  flat_map
    (fun raw =>
       flat_map (file_hashed E disk (abspath E raw))
         (listed disk (abspath E raw)))
    inputs.

(** The label one metadata document contributes to the run name. *)
Definition declared_name (metajson : gmap string string) : string :=
  default "unnamed result folder" (metajson !! "name").

(** The labels of the metadata documents found in the input directories,
    in input order; an unreadable or malformed document is an error. *)
Fixpoint metadata_names (E : Env) (disk : gmap string node)
    (inputs : list string) : outcome (list string) :=
  match inputs with
  | [] => Return []
  | input_path :: rest =>
      let metafile := Path.join input_path "metadata.json" in
      if isdir disk input_path && exists_ disk metafile then
        match disk !! metafile with
        | Some (File c) =>
            match json_load E c with
            | Return metajson =>
                match metadata_names E disk rest with
                | Return names => Return (declared_name metajson :: names)
                | Raise e => Raise e
                end
            | Raise e => Raise e
            end
        | Some (Dir _) => Raise (OSError 21 "Is a directory" metafile)
        | None => Raise (OSError 2 "No such file or directory" metafile)
        end
      else metadata_names E disk rest
  end.

(** The name derived from the labels, or [None] where the handler gives
    up with exit status 2. *)
Definition derived_name (names : list string) : option string :=
  match names with
  | [] => None
  | [n] =>
      if String.eqb n "unnamed result folder" || String.eqb n ""
      then None else Some n
  | _ => Some ("multiple projects: " +:+ Str.join ", " names)
  end.


(** ** What the specification claimed, where the handler differs *)

(** The representative of a hash is the FIRST path hashed with it. *)
Definition first_writer_wins (E : Env) (inputs : list string)
    (zip_file : string) (s : state) : Prop :=
  forall r s' before f after,
    assemble_zip E inputs zip_file s = (r, s') ->
    hashed (since s s') = before ++ f :: after ->
    (forall g, g ∈ before -> digest E (fs s) g <> digest E (fs s) f) ->
    hash_to_file s' !! digest E (fs s) f = Some f.

(** The payload handed to the store RPC is within the ceiling. *)
Definition payload_within_ceiling (tr : list event) : Prop :=
  forall run tg ver payload f,
    MassStoreRun run tg ver payload f ∈ tr ->
    (N.of_nat (String.length payload) <= MAX_UPLOAD_SIZE)%N.

(** No metadata document of the inputs declares a name. *)
Definition no_declared_name (E : Env) (disk : gmap string node)
    (inputs : list string) : Prop :=
  forall p c metajson,
    p ∈ inputs ->
    disk !! Path.join p "metadata.json" = Some (File c) ->
    json_load E c = Return metajson ->
    metajson !! "name" = None.

(** Without a declared name the handler exits with status 2. *)
Definition missing_name_exits (E : Env) (args : Args)
    (disk : gmap string node) : Prop :=
  name args = None ->
  no_declared_name E disk (input_list args) ->
  (main E args (init_state disk)).1 = Raise (SystemExit 2).

(** A metadata document named by an input path that is a file is in the
    archive. *)
Definition metadata_input_bundled (E : Env) (inputs : list string)
    (zip_file : string) (s : state) : Prop :=
  forall raw c s',
    raw ∈ inputs ->
    Str.endswith (abspath E raw) "/metadata.json" = true ->
    fs s !! abspath E raw = Some (File c) ->
    assemble_zip E inputs zip_file s = (Return tt, s') ->
    exists e, e ∈ zipf s' /\ data e = c.

(** The files a report references, hashed or not. *)
Definition plist_referenced (E : Env) (disk : gmap string node)
    (plist_file : string) : list string :=
  match disk !! plist_file with
  | Some (File c) =>
      match parse_plist E c with
      | Some files => files
      | None => []
      end
  | _ => []
  end.

Definition file_referenced (E : Env) (disk : gmap string node)
    (input_path f : string) : list string :=
  if Str.endswith f ".plist"
  then plist_referenced E disk (Path.join input_path f)
  else [].

(** The files referenced by the reports of the inputs. *)
Definition referenced_paths (E : Env) (disk : gmap string node)
    (inputs : list string) : list string :=
  flat_map
    (fun raw =>
       flat_map (file_referenced E disk (abspath E raw))
         (listed disk (abspath E raw)))
    inputs.

Definition file_surviving (E : Env) (disk : gmap string node)
    (input_path f : string) : list string :=
  if Str.endswith f ".plist" && survives E disk (Path.join input_path f)
  then plist_referenced E disk (Path.join input_path f)
  else [].

(** The files referenced by the reports that survive. *)
Definition surviving_paths (E : Env) (disk : gmap string node)
    (inputs : list string) : list string :=
  flat_map
    (fun raw =>
       flat_map (file_surviving E disk (abspath E raw))
         (listed disk (abspath E raw)))
    inputs.

(** Any two referenced files with the same bytes have one hash, which the
    query holds once. *)
Definition referenced_files_share_hash (E : Env) (inputs : list string)
    (zip_file : string) (s : state) : Prop :=
  forall s' f1 f2,
    assemble_zip E inputs zip_file s = (Return tt, s') ->
    f1 ∈ referenced_paths E (fs s) inputs ->
    f2 ∈ referenced_paths E (fs s) inputs ->
    f1 <> f2 ->
    isfile (fs s) f1 = true ->
    isfile (fs s) f2 = true ->
    content (fs s) f1 = content (fs s) f2 ->
    exists h keys,
      file_to_hash s' !! f1 = Some h /\
      file_to_hash s' !! f2 = Some h /\
      queries (since s s') = [keys] /\
      count_occ string_dec keys h = 1.

(** ** Sample runs *)

(** A stand-in report parser: the report's bytes are the referenced
    paths, one per line, and a report starting with ['!'] is malformed. *)
Fixpoint lines_of (cur s : string) : list string :=
  match s with
  | EmptyString => if String.eqb cur "" then [] else [cur]
  | String c rest =>
      if Ascii.eqb c "010" then cur :: lines_of "" rest
      else lines_of (cur +:+ String c "") rest
  end.

Definition sample_parse (c : string) : option (list string) :=
  if Str.startswith c "!" then None else Some (lines_of "" c).

(** Collaborators for the sample runs: permission as given, the remote
    answering [missing] to the reconciliation query, and [compress] as
    the last compression pass. *)
Definition sample_env (permitted : bool)
    (missing : list string -> list string)
    (compress : string -> string) : Env := {|
  check_zlib := true;
  abspath := fun p => p;
  json_load := fun c =>
    Return (if String.eqb c "{}" then ∅ else {[ "name" := c ]});
  json_dumps := fun m =>
    Str.join ";" ((fun kv => kv.1 +:+ "=" +:+ kv.2) <$> map_to_list m);
  split_product_url := fun _ =>
    Return ("http", "localhost", "8001", "Default");
  getCurrentProduct := Return 1%Z;
  check_permission := fun _ => Return permitted;
  setup_client := fun _ => Return tt;
  mkstemp := fun _ => "/tmp/tmp0.zip";
  parse_plist := sample_parse;
  sha256_hexdigest := fun c => "sha(" +:+ c +:+ ")";
  getMissingContentHashes := fun keys => Return (missing keys);
  massStoreRun := fun _ _ _ _ _ => Return tt;
  zip_bytes := fun entries =>
    Str.join "|" ((fun e => arcname e +:+ ":" +:+ data e) <$> entries);
  zlib_compress := compress;
  context_version := "6.0"
|}.

Definition newline : string := String "010" "".

(** A results directory with one report, referencing two files with the
    same bytes, and a metadata document naming the project. *)
Definition sample_disk : gmap string node :=
  list_to_map
    [("/r", Dir ["A.plist"; "metadata.json"]);
     ("/r/A.plist", File ("/src/a.c" +:+ newline +:+ "/src/b.c"));
     ("/r/metadata.json", File "proj");
     ("/src/a.c", File "int x;");
     ("/src/b.c", File "int x;")].

(** A results directory whose only report references a file that is
    there and then one that is gone. *)
Definition stale_disk : gmap string node :=
  list_to_map
    [("/r", Dir ["B.plist"]);
     ("/r/B.plist", File ("/src/a.c" +:+ newline +:+ "/src/gone.c"));
     ("/src/a.c", File "int x;")].

(** Two results directories whose metadata documents declare no name. *)
Definition unnamed_disk : gmap string node :=
  list_to_map
    [("/p", Dir ["metadata.json"]); ("/p/metadata.json", File "{}");
     ("/q", Dir ["metadata.json"]); ("/q/metadata.json", File "{}")].

Definition sample_args (inputs : list string) (run : option string)
    : Args := {|
  input := inr inputs;
  name := run;
  tag := None;
  force := false;
  product_url := "localhost:8001/Default"
|}.

(** A bundle of exactly [MAX_UPLOAD_SIZE] zero bytes. *)
Definition full_bundle : string :=
  Str.replicate (N.to_nat MAX_UPLOAD_SIZE) "000".

(** Collaborators of the sample runs that reach the store RPC: the remote
    holds nothing yet, and "compression" prepends one byte. *)
Definition plain_env : Env :=
  sample_env true (fun keys => keys) (fun c => "z" +:+ c).

(** The sample run: one report, two identical sources, a project name. *)
Definition sample_run : outcome unit * state :=
  main plain_env (sample_args ["/r"] None) (init_state sample_disk).

(** The state [main] runs its [try] statement in. *)
Definition staged (disk : gmap string node) : state :=
  init_state (<["/tmp/tmp0.zip" := File ""]> disk).

(** The sample assembly, on its own. *)
Definition sample_assembly : outcome unit * state :=
  assemble_zip plain_env ["/r"] "/tmp/tmp0.zip" (staged sample_disk).

(** The same run by a caller without store permission. *)
Definition denied_run : outcome unit * state :=
  main (sample_env false (fun keys => keys) (fun c => "z" +:+ c))
    (sample_args ["/r"] None) (init_state sample_disk).



(** An assembly whose only report has lost one of its sources. *)
Definition stale_assembly : outcome unit * state :=
  assemble_zip plain_env ["/r"] "/tmp/tmp0.zip" (staged stale_disk).

(** Two reports: one references a file, the other a file that is gone
    and then a file with the same bytes as the first report's. *)
Definition late_disk : gmap string node :=
  list_to_map
    [("/r", Dir ["A.plist"; "B.plist"]);
     ("/r/A.plist", File "/src/b.c");
     ("/r/B.plist", File ("/src/gone.c" +:+ newline +:+ "/src/a.c"));
     ("/src/a.c", File "int x;");
     ("/src/b.c", File "int x;")].

Definition late_assembly : outcome unit * state :=
  assemble_zip plain_env ["/r"] "/tmp/tmp0.zip" (staged late_disk).

(** The metadata document of the sample directory, named directly. *)
Definition metadata_assembly : outcome unit * state :=
  assemble_zip plain_env ["/r/metadata.json"] "/tmp/tmp0.zip"
    (staged sample_disk).

(** A run over the two directories without declared names. *)
Definition unnamed_args : Args := sample_args ["/p"; "/q"] None.

Definition unnamed_run : outcome unit * state :=
  main plain_env unnamed_args (init_state unnamed_disk).

(** A run, with an explicit name and no inputs, whose compressed bundle
    is [bundle]. *)
Definition bundle_env (bundle : string) : Env :=
  sample_env true (fun keys => keys) (fun _ => bundle).

Definition bundle_run (bundle : string) : outcome unit * state :=
  main (bundle_env bundle) (sample_args [] (Some "run")) (init_state ∅).

(** Proof steps for the sample runs: a run is the pair of its
    projections, and membership in an evaluated list. *)
Ltac its_run := vm_compute; reflexivity.
Ltac in_list := vm_compute; repeat constructor.


(** ** Further readings of a trace and of an outcome *)

(** [OSError], the class of the handler's own [raise] and of the failures
    of [open], [zipf.write] and [os.remove]. *)
Definition is_OSError (e : exc) : bool :=
  match e with
  | OSError _ _ _ => true
  | _ => false
  end.

(** The run names of the [massStoreRun] calls of a trace, in order. *)
Fixpoint stored (tr : list event) : list string :=
  match tr with
  | [] => []
  | MassStoreRun run _ _ _ _ :: rest => run :: stored rest
  | _ :: rest => stored rest
  end.

(** What the [except Exception] clause of [main] makes of the outcome of
    the [try] suite. *)
Definition exit_of (r : outcome unit) : outcome unit :=
  match r with
  | Return _ => Return tt
  | Raise e => if is_Exception e then Raise (SystemExit 1) else Raise e
  end.

(** The state [main] enters its [try] statement in, after the four calls
    that precede it. *)
Definition entered (E : Env) (args : Args) (pid : Z) (s : state) : state :=
  let zip_file := mkstemp E (fs s) in
  State (<[zip_file := File ""]> (fs s))
    (trace s ++ [GetCurrentProduct; CheckPermission pid;
                 SetupClient (product_url args); Mkstemp zip_file])
    (zipf s) (hash_to_file s) (file_to_hash s).

(** ** Further sample runs *)

(** A results directory whose only report is malformed. *)
Definition broken_disk : gmap string node :=
  list_to_map
    [("/r", Dir ["C.plist"]); ("/r/C.plist", File "!garbage")].

(** The collaborators of the sample runs, with a JSON decoder that
    accepts the empty object only. *)
Definition strict_env : Env := {|
  check_zlib := check_zlib plain_env;
  abspath := abspath plain_env;
  json_load := fun c =>
    if String.eqb c "{}" then Return ∅
    else Raise (Error "No JSON object could be decoded");
  json_dumps := json_dumps plain_env;
  split_product_url := split_product_url plain_env;
  getCurrentProduct := getCurrentProduct plain_env;
  check_permission := check_permission plain_env;
  setup_client := setup_client plain_env;
  mkstemp := mkstemp plain_env;
  parse_plist := parse_plist plain_env;
  sha256_hexdigest := sha256_hexdigest plain_env;
  getMissingContentHashes := getMissingContentHashes plain_env;
  massStoreRun := massStoreRun plain_env;
  zip_bytes := zip_bytes plain_env;
  zlib_compress := zlib_compress plain_env;
  context_version := context_version plain_env
|}.

(** The sample report, named directly. *)
Definition report_assembly : outcome unit * state :=
  assemble_zip plain_env ["/r/A.plist"] "/tmp/tmp0.zip" (staged sample_disk).


(** The payload of the store RPC of the sample run. *)
Definition sample_payload : string :=
  Base64.b64encode
    (zlib_compress plain_env (zip_bytes plain_env (zipf sample_run.2))).

(** ** Reading a payload back *)

(** The position of a character in a string. *)
Fixpoint index_of (c : ascii) (s : string) : option N :=
  match s with
  | EmptyString => None
  | String d rest =>
      if Ascii.eqb c d then Some 0%N else N.succ <$> index_of c rest
  end.

(** The six bits a base64 digit stands for; [None] for the padding
    character and anything else outside the alphabet. *)
Definition digit_value (c : ascii) : option N := index_of c Base64.alphabet.

(** What the receiving side makes of a payload (RFC 4648 decoding of
    padded base64); the handler itself never decodes, the function is
    here to state that encoding loses nothing. *)
Fixpoint b64decode (s : string) : option string :=
  match s with
  | EmptyString => Some ""
  | String a (String b (String c (String d rest))) =>
      match digit_value a, digit_value b with
      | Some v1, Some v2 =>
          let x := ascii_of_N (v1 * 4 + v2 / 16) in
          match digit_value c with
          | Some v3 =>
              let y := ascii_of_N ((v2 mod 16) * 16 + v3 / 4) in
              match digit_value d with
              | Some v4 =>
                  let z := ascii_of_N ((v3 mod 4) * 64 + v4) in
                  (fun r => String x (String y (String z r))) <$>
                    b64decode rest
              | None =>
                  if Ascii.eqb d Base64.pad && String.eqb rest ""
                  then Some (String x (String y "")) else None
              end
          | None =>
              if Ascii.eqb c Base64.pad && Ascii.eqb d Base64.pad &&
                 String.eqb rest ""
              then Some (String x "") else None
          end
      | _, _ => None
      end
  | _ => None
  end.

(** ** [res_handler] *)

(** [str(n)] of a non-negative [int]. *)
Definition str (n : nat) : string :=
  NilEmpty.string_of_uint (Nat.to_uint n).

(** [results.count(v)] *)
Definition count (results : list Z) (v : Z) : nat :=
  count_occ Z.eq_dec results v.

(** [res_handler] does nothing but log; these are its three messages,
    all at level INFO. *)
Definition res_handler (results : list Z) : list string :=
  ["Finished processing and storing reports.";
   "Failed: " +:+ str (count results 1) +:+ "/" +:+ str (length results);
   "Successful " +:+ str (count results 0) +:+ "/" +:+
     str (length results)].

(** * Properties *)

(** ** Byte strings and base64 *)

Lemma replicate_length n c : String.length (Str.replicate n c) = n.
Proof. induction n as [|n IH]; simpl; by rewrite ?IH. Qed.

Lemma b64encode_length_step s :
  (String.length (Base64.b64encode s) = 4 * ((String.length s + 2) / 3)) /\
  (forall a,
     String.length (Base64.b64encode (String a s)) =
     4 * ((String.length (String a s) + 2) / 3)) /\
  (forall a b,
     String.length (Base64.b64encode (String a (String b s))) =
     4 * ((String.length (String a (String b s)) + 2) / 3)).
Proof.
  induction s as [|c s (IH0 & IH1 & IH2)].
  - repeat split; intros; reflexivity.
  - split; [apply IH1|]. split; [intros a; apply IH2|].
    intros a b. cbn [Base64.b64encode String.length]. rewrite IH0.
    replace (S (S (S (String.length s))) + 2) with
      (1 * 3 + (String.length s + 2)) by lia.
    rewrite Nat.div_add_l by lia. lia.
Qed.

(** The encoded form is four bytes for every three, rounded up. *)
Lemma b64encode_length s :
  String.length (Base64.b64encode s) = 4 * ((String.length s + 2) / 3).
Proof. apply b64encode_length_step. Qed.

Lemma b64encode_size s :
  N.of_nat (String.length (Base64.b64encode s)) =
  (4 * ((N.of_nat (String.length s) + 2) / 3))%N.
Proof.
  rewrite b64encode_length, Nat2N.inj_mul, Nat2N.inj_div, Nat2N.inj_add.
  done.
Qed.

(** ** The monad and the step relations *)

Lemma bind_inv {A B} (m : M A) (k : A -> M B) s r s' :
  bind m k s = (r, s') ->
  (exists a s1, m s = (Return a, s1) /\ k a s1 = (r, s')) \/
  (exists e, m s = (Raise e, s') /\ r = Raise e).
Proof.
  unfold bind. destruct (m s) as [[a|e] s1]; intros H.
  - left. eauto.
  - right. inversion H; subst. eauto.
Qed.

Lemma hashed_app tr1 tr2 : hashed (tr1 ++ tr2) = hashed tr1 ++ hashed tr2.
Proof.
  induction tr1 as [|ev tr1 IH]; simpl; [done|].
  destruct ev; simpl; by rewrite ?IH.
Qed.

Lemma quiet_refl s : quiet s s.
Proof. by repeat split. Qed.

Lemma quiet_trans s1 s2 s3 : quiet s1 s2 -> quiet s2 s3 -> quiet s1 s3.
Proof. unfold quiet. intros (? & ? & ? & ?) (? & ? & ? & ?). repeat split; congruence. Qed.

Lemma hashing_refl E s : hashing E s s.
Proof.
  split; [done|]. exists []. rewrite app_nil_r. repeat split; constructor.
Qed.

Lemma hashing_trans E s1 s2 s3 :
  hashing E s1 s2 -> hashing E s2 s3 -> hashing E s1 s3.
Proof.
  intros [Hfs1 (ev1 & Ht1 & Hc1 & Hf1 & Hh1 & Hg1)]
         [Hfs2 (ev2 & Ht2 & Hc2 & Hf2 & Hh2 & Hg2)].
  split; [congruence|]. exists (ev1 ++ ev2).
  rewrite Hfs1 in *. rewrite hashed_app.
  repeat split.
  - rewrite Ht2, Ht1. by rewrite app_assoc.
  - by apply Forall_app.
  - by apply Forall_app.
  - unfold record_h2f in *. rewrite foldl_app. by rewrite <- Hh1.
  - unfold record_f2h in *. rewrite foldl_app. by rewrite <- Hg1.
Qed.

Lemma hashing_zipf E s z :
  hashing E s (State (fs s) (trace s) z (hash_to_file s) (file_to_hash s)).
Proof. destruct (hashing_refl E s) as [? ?]. split; simpl; done. Qed.

Section Properties.

Variable E : Env.

Lemma since_app s s' (evs : list event) :
  trace s' = trace s ++ evs -> since s s' = evs.
Proof. unfold since. intros ->. by rewrite drop_app_length. Qed.

Lemma since_hashing s1 s2 s3 :
  hashing E s1 s2 -> hashing E s2 s3 ->
  since s1 s3 = since s1 s2 ++ since s2 s3.
Proof.
  intros [_ (ev1 & Ht1 & _)] [_ (ev2 & Ht2 & _)].
  rewrite (since_app _ _ _ Ht1), (since_app _ _ _ Ht2).
  apply since_app. by rewrite Ht2, Ht1, app_assoc.
Qed.

Lemma since_refl s : since s s = [].
Proof. apply since_app. by rewrite app_nil_r. Qed.

Lemma since_quiet s s' : quiet s s' -> since s s' = [].
Proof. intros (_ & Ht & _). apply since_app. by rewrite app_nil_r. Qed.

Lemma hash_files_hashing files : forall s r s',
  hash_files E files s = (r, s') -> hashing E s s' /\ zipf s' = zipf s /\
  r = Return (forallb (isfile (fs s)) files).
Proof.
  induction files as [|f rest IH]; intros s r s' H; simpl in H.
  - inversion H; subst. split; [apply hashing_refl|done].
  - unfold bind, get, ret in H. simpl in H.
    destruct (isfile (fs s) f) eqn:Hf; simpl in H.
    + unfold read_file in H. unfold isfile in Hf.
      destruct (fs s !! f) as [[c|?]|] eqn:Hl; try discriminate.
      simpl in H. apply IH in H. simpl in H.
      destruct H as (Hh & Hz & Hr). split; [|split; [done|]].
      * eapply hashing_trans; [|exact Hh].
        split; [done|]. exists [Sha256 f]. simpl.
        repeat split; try done.
        -- by constructor.
        -- constructor; [|constructor]. unfold isfile. by rewrite Hl.
        -- unfold digest, content. by rewrite Hl.
        -- unfold digest, content. by rewrite Hl.
      * rewrite Hr. simpl. unfold isfile at 2. by rewrite Hl.
    + inversion H; subst. split; [apply hashing_refl|]. simpl. by rewrite Hf.
Qed.

Lemma hash_files_hashed files : forall s r s',
  hash_files E files s = (r, s') ->
  hashed (since s s') = regular_prefix (fs s) files.
Proof.
  induction files as [|f rest IH]; intros s r s' H.
  - injection H as _ <-. by rewrite since_refl.
  - pose proof H as Hall. apply hash_files_hashing in Hall as [Hh _].
    simpl in H. unfold bind, get, ret in H. simpl in H.
    simpl. destruct (isfile (fs s) f) eqn:Hf; simpl in H.
    + unfold read_file in H. unfold isfile in Hf.
      destruct (fs s !! f) as [[c|?]|] eqn:Hl; try discriminate.
      simpl in H.
      set (s1 := State _ _ _ _ _) in H.
      assert (H1 : hashing E s s1).
      { subst s1. split; [done|]. exists [Sha256 f]. simpl.
        unfold isfile, record_h2f, record_f2h, digest, content. simpl.
        rewrite Hl.
        split; [done|]. split; [by repeat constructor|].
        split; [|done]. constructor; [by rewrite Hl|constructor]. }
      pose proof H as H2. apply hash_files_hashing in H2 as [H2 _].
      rewrite (since_hashing _ _ _ H1 H2), hashed_app.
      rewrite (IH _ _ _ H). by rewrite (since_app s s1 [Sha256 f]).
    + injection H as _ <-. by rewrite since_refl.
Qed.

Lemma parse_plist_file_spec p s r s' :
  parse_plist_file E p s = (r, s') ->
  hashing E s s' /\ zipf s' = zipf s /\
  match r with
  | Return files =>
      exists c, fs s !! p = Some (File c) /\ parse_plist E c = Some files
  | Raise e => is_Exception e = true /\ survives E (fs s) p = false
  end.
Proof.
  unfold parse_plist_file, bind, emit, read_file, ret, raise. simpl.
  intros H.
  assert (Hh : forall s0, fs s0 = fs s -> trace s0 = trace s ++ [ParsePlist p] ->
            hash_to_file s0 = hash_to_file s ->
            file_to_hash s0 = file_to_hash s -> hashing E s s0).
  { intros s0 ? ? ? ?. split; [done|]. exists [ParsePlist p].
    repeat split; simpl; try done. by constructor. }
  unfold survives.
  destruct (fs s !! p) as [[c|?]|] eqn:Hl; simpl in H.
  - destruct (parse_plist E c) eqn:Hp; inversion H; subst; simpl;
      (split; [by apply Hh|]); split; eauto.
  - inversion H; subst; simpl. split; [by apply Hh|]. done.
  - inversion H; subst; simpl. split; [by apply Hh|]. done.
Qed.

Lemma collect_spec p s r s' :
  collect_file_hashes_from_plist E p s = (r, s') ->
  hashing E s s' /\ zipf s' = zipf s /\ r = Return (survives E (fs s) p).
Proof.
  unfold collect_file_hashes_from_plist, try_except. intros H.
  destruct (bind _ _ s) as [r0 s0] eqn:Hb.
  apply bind_inv in Hb as [(files & s1 & Hp & Hf)|(e & Hp & ->)].
  - apply parse_plist_file_spec in Hp as (Hh1 & Hz1 & c & Hl & Hpc).
    apply hash_files_hashing in Hf as (Hh2 & Hz2 & ->).
    inversion H; subst. split; [by eapply hashing_trans|].
    split; [congruence|]. unfold survives. rewrite Hl, Hpc.
    destruct Hh1 as [-> _]. done.
  - apply parse_plist_file_spec in Hp as (Hh1 & Hz1 & Hex & Hs).
    rewrite Hex in H. inversion H; subst. rewrite Hs. done.
Qed.

Lemma collect_hashed p s r s' :
  collect_file_hashes_from_plist E p s = (r, s') ->
  hashed (since s s') = plist_hashed E (fs s) p.
Proof.
  unfold collect_file_hashes_from_plist, try_except, plist_hashed.
  intros H. destruct (bind _ _ s) as [r0 s0] eqn:Hb.
  assert (s0 = s') as ->.
  { destruct r0 as [?|e]; [by injection H|].
    destruct (is_Exception e); by injection H. }
  clear H.
  apply bind_inv in Hb as [(files & s1 & Hp & Hf)|(e & Hp & _)].
  - pose proof Hp as Hp'. pose proof Hf as Hf'.
    apply parse_plist_file_spec in Hp' as (Hh1 & _ & c & -> & ->).
    apply hash_files_hashing in Hf' as (Hh2 & _).
    rewrite (since_hashing _ _ _ Hh1 Hh2), hashed_app.
    rewrite (hash_files_hashed _ _ _ _ Hf).
    destruct Hh1 as [-> _].
    unfold parse_plist_file, bind, emit, read_file in Hp. simpl in Hp.
    destruct (fs s !! p) as [[?|?]|]; try discriminate.
    destruct (parse_plist E _); try discriminate.
    injection Hp as _ <-.
    by rewrite (since_app s _ [ParsePlist p]).
  - unfold parse_plist_file, bind, emit, read_file, raise, ret in Hp.
    simpl in Hp.
    destruct (fs s !! p) as [[c|?]|];
      [destruct (parse_plist E c); [discriminate|]|..];
      injection Hp as _ <-;
      by rewrite (since_app s _ [ParsePlist p]).
Qed.

Lemma zipf_write_quiet filename arc s r s' :
  zipf_write filename arc s = (r, s') ->
  quiet s s' /\
  (r = Return tt -> zipf s' = zipf s ++ member (fs s) filename arc).
Proof.
  unfold zipf_write, member. intros H.
  destruct (fs s !! filename) as [[c|?]|]; inversion H; subst r s'; simpl;
    (split; [by repeat split|done]).
Qed.

Lemma quiet_hashing s s' : quiet s s' -> hashing E s s'.
Proof.
  intros (Hfs & Ht & Hh & Hg). split; [done|]. exists [].
  rewrite app_nil_r. simpl. repeat split; try done; constructor.
Qed.

Lemma zipf_write_spec filename arc s r s' :
  zipf_write filename arc s = (r, s') ->
  hashing E s s' /\
  (r = Return tt -> zipf s' = zipf s ++ member (fs s) filename arc).
Proof.
  intros H. apply zipf_write_quiet in H as [Hq Hz].
  split; [by apply quiet_hashing|done].
Qed.

Lemma add_file_spec ip f s r s' :
  add_file E ip f s = (r, s') ->
  hashing E s s' /\
  (r = Return tt -> zipf s' = zipf s ++ file_entries E (fs s) ip f).
Proof.
  unfold add_file, file_entries. intros H.
  destruct (Str.endswith f ".plist").
  - apply bind_inv in H as [(ok & s1 & Hc & Hw)|(e & Hc & ->)];
      apply collect_spec in Hc as (Hh & Hz & Hr); [|done].
    inversion Hr; subst ok.
    destruct (survives E (fs s) (Path.join ip f)).
    + apply zipf_write_spec in Hw as [Hh2 Hz2].
      split; [by eapply hashing_trans|]. intros ->.
      rewrite Hz2 by done. destruct Hh as [-> _]. by rewrite Hz.
    + inversion Hw; subst. split; [done|]. intros _.
      by rewrite app_nil_r.
  - destruct (String.eqb f "metadata.json").
    + by apply zipf_write_spec in H.
    + inversion H; subst. split; [apply hashing_refl|].
      intros _. by rewrite app_nil_r.
Qed.

Lemma add_file_hashed ip f s r s' :
  add_file E ip f s = (r, s') ->
  hashed (since s s') = file_hashed E (fs s) ip f.
Proof.
  unfold add_file, file_hashed. intros H.
  destruct (Str.endswith f ".plist").
  - apply bind_inv in H as [(ok & s1 & Hc & Hw)|(e & Hc & ->)];
      [|by apply collect_hashed in Hc].
    pose proof Hc as Hc'. apply collect_spec in Hc' as (Hh & _ & _).
    rewrite <- (collect_hashed _ _ _ _ Hc).
    destruct ok.
    + apply zipf_write_quiet in Hw as [Hq _].
      rewrite (since_hashing _ _ _ Hh (quiet_hashing _ _ Hq)).
      by rewrite (since_quiet _ _ Hq), app_nil_r.
    + by injection Hw as _ <-.
  - destruct (String.eqb f "metadata.json").
    + apply zipf_write_quiet in H as [Hq _]. by rewrite since_quiet.
    + injection H as _ <-. by rewrite since_refl.
Qed.

Lemma for_each_spec {A} (R : state -> state -> Prop) (body : A -> M unit)
    (g : gmap string node -> A -> list zip_entry) :
  (forall s, R s s) ->
  (forall s1 s2 s3, R s1 s2 -> R s2 s3 -> R s1 s3) ->
  (forall s s', R s s' -> fs s' = fs s) ->
  (forall x s r s', body x s = (r, s') ->
     R s s' /\ (r = Return tt -> zipf s' = zipf s ++ g (fs s) x)) ->
  forall l s r s', for_each l body s = (r, s') ->
    R s s' /\ (r = Return tt -> zipf s' = zipf s ++ flat_map (g (fs s)) l).
Proof.
  intros Hrefl Htrans Hfs Hbody.
  induction l as [|x l IH]; intros s r s' H; simpl in H.
  - inversion H; subst. split; [apply Hrefl|].
    intros _. simpl. by rewrite app_nil_r.
  - apply bind_inv in H as [([] & s1 & Hx & Hl)|(e & Hx & ->)].
    + apply Hbody in Hx as [Hh1 Hz1]. apply IH in Hl as [Hh2 Hz2].
      split; [by eapply Htrans|]. intros ->.
      rewrite Hz2, Hz1 by done. rewrite (Hfs _ _ Hh1).
      simpl. by rewrite app_assoc.
    + apply Hbody in Hx as [Hh1 _]. done.
Qed.

Lemma for_each_hashing {A} (body : A -> M unit)
    (g : gmap string node -> A -> list zip_entry) :
  (forall x s r s', body x s = (r, s') ->
     hashing E s s' /\ (r = Return tt -> zipf s' = zipf s ++ g (fs s) x)) ->
  forall l s r s', for_each l body s = (r, s') ->
    hashing E s s' /\
    (r = Return tt -> zipf s' = zipf s ++ flat_map (g (fs s)) l).
Proof.
  apply for_each_spec.
  - apply hashing_refl.
  - apply hashing_trans.
  - by intros s s' [? _].
Qed.

Lemma for_each_hashed {A} (body : A -> M unit)
    (h : gmap string node -> A -> list string) :
  (forall x s r s', body x s = (r, s') ->
     hashing E s s' /\
     (r = Return tt -> hashed (since s s') = h (fs s) x)) ->
  forall l s s', for_each l body s = (Return tt, s') ->
    hashing E s s' /\ hashed (since s s') = flat_map (h (fs s)) l.
Proof.
  intros Hbody. induction l as [|x l IH]; intros s s' H; simpl in H.
  - injection H as <-. split; [apply hashing_refl|]. by rewrite since_refl.
  - apply bind_inv in H as [([] & s1 & Hx & Hl)|(e & _ & ?)]; [|done].
    apply Hbody in Hx as [Hh1 Hx]. apply IH in Hl as [Hh2 Hl].
    split; [by eapply hashing_trans|].
    rewrite (since_hashing _ _ _ Hh1 Hh2), hashed_app, Hx, Hl by done.
    by destruct Hh1 as [-> _].
Qed.

Lemma add_input_spec raw s r s' :
  add_input E raw s = (r, s') ->
  hashing E s s' /\
  (r = Return tt -> zipf s' = zipf s ++ input_entries E (fs s) raw).
Proof.
  unfold add_input, input_entries, listed, bind, get. simpl. intros H.
  destruct (exists_ (fs s) (abspath E raw)); simpl in H.
  - apply (for_each_hashing _ (fun d => file_entries E d (abspath E raw)))
      in H; [done|]. intros. by apply add_file_spec.
  - inversion H; subst. split; [apply hashing_refl|done].
Qed.

Lemma add_input_hashed raw s s' :
  add_input E raw s = (Return tt, s') ->
  hashed (since s s') =
  flat_map (file_hashed E (fs s) (abspath E raw))
    (listed (fs s) (abspath E raw)).
Proof.
  unfold add_input, bind, get, listed. simpl. intros H.
  destruct (exists_ (fs s) (abspath E raw)); [|discriminate].
  simpl in H.
  apply (for_each_hashed _ (fun d => file_hashed E d (abspath E raw)))
    in H; [by destruct H|].
  intros f s1 r1 s2 Hf. split; [by apply add_file_spec in Hf as [? _]|].
  intros _. by apply add_file_hashed in Hf.
Qed.

Lemma add_inputs_spec inputs s r s' :
  for_each inputs (add_input E) s = (r, s') ->
  hashing E s s' /\
  (r = Return tt -> zipf s' = zipf s ++ report_entries E (fs s) inputs).
Proof.
  apply (for_each_hashing _ (input_entries E)). intros.
  by apply add_input_spec.
Qed.

Lemma add_inputs_hashed inputs s s' :
  for_each inputs (add_input E) s = (Return tt, s') ->
  hashed (since s s') = hashed_paths E (fs s) inputs.
Proof.
  intros H.
  apply (for_each_hashed _
           (fun d raw =>
              flat_map (file_hashed E d (abspath E raw))
                (listed d (abspath E raw)))) in H; [by destruct H|].
  intros raw s1 r s2 Hraw.
  split; [by apply add_input_spec in Hraw as [? _]|].
  intros ->. by apply add_input_hashed.
Qed.

Lemma add_content_spec nh item s r s' :
  add_content nh item s = (r, s') ->
  quiet s s' /\
  (r = Return tt -> zipf s' = zipf s ++ content_entry (fs s) nh item).
Proof.
  unfold add_content, content_entry. destruct item as [f h]. simpl.
  destruct (bool_decide (h ∈ nh)); intros H.
  - by apply zipf_write_quiet in H.
  - inversion H; subst. split; [apply quiet_refl|].
    intros _. by rewrite app_nil_r.
Qed.

Lemma add_contents_spec nh items s r s' :
  for_each items (add_content nh) s = (r, s') ->
  quiet s s' /\
  (r = Return tt ->
   zipf s' = zipf s ++ flat_map (content_entry (fs s) nh) items).
Proof.
  apply (for_each_spec quiet _ (fun d => content_entry d nh)).
  - apply quiet_refl.
  - apply quiet_trans.
  - by intros ? ? [? _].
  - intros. by apply add_content_spec.
Qed.

(** What one run of the [with] block does to the store. *)
Lemma fill_zip_spec inputs s r s' :
  fill_zip E inputs s = (r, s') ->
  fs s' = fs s /\
  exists (evs q : list event),
    let keys := (map_to_list (hash_to_file s')).*1 in
    trace s' = trace s ++ evs ++ q /\
    (q = [] \/ q = [GetMissingContentHashes keys]) /\
    Forall (fun ev => is_hashing ev = true) evs /\
    Forall (fun f => isfile (fs s) f = true) (hashed evs) /\
    hash_to_file s' = record_h2f E (fs s) (hashed evs) (hash_to_file s) /\
    file_to_hash s' = record_f2h E (fs s) (hashed evs) (file_to_hash s) /\
    (r = Return tt ->
     q = [GetMissingContentHashes keys] /\
     hashed evs = hashed_paths E (fs s) inputs /\
     exists nh,
       getMissingContentHashes E keys = Return nh /\
       zipf s' =
         zipf s ++ report_entries E (fs s) inputs ++
         content_entries (fs s) nh (file_to_hash s') ++
         [manifest E (file_to_hash s')]).
Proof.
  unfold fill_zip. intros H.
  apply bind_inv in H as [([] & s1 & Hin & H)|(e & Hin & ->)];
    pose proof Hin as Hpaths;
    apply add_inputs_spec in Hin
      as [[Hfs1 (evs & Ht1 & Hc1 & Hf1 & Hh1 & Hg1)] Hz1].
  1: apply add_inputs_hashed in Hpaths;
     rewrite (since_app _ _ _ Ht1) in Hpaths.
  2:{ split; [done|]. exists evs, []. simpl. rewrite app_nil_r.
      repeat split; try done. by left. }
  unfold bind, get, emit, lift in H. simpl in H.
  set (keys := (map_to_list (hash_to_file s1)).*1) in *.
  destruct (getMissingContentHashes E keys) as [nh|e] eqn:Hq.
  2:{ inversion H; subst r s'. simpl. split; [done|].
      exists evs, [GetMissingContentHashes keys]. simpl.
      rewrite Ht1, <- app_assoc. repeat split; try done. by right. }
  destruct (for_each _ _ _) as [[[]|e] s2] eqn:Hloop;
    apply add_contents_spec in Hloop as [(Hfs2 & Ht2 & Hh2 & Hg2) Hz2];
    simpl in *.
  - unfold zipf_writestr in H. inversion H; subst r s'. simpl.
    split; [congruence|].
    exists evs, [GetMissingContentHashes keys]. simpl.
    rewrite Hh2, Hg2, Ht2, Ht1, <- app_assoc.
    repeat split; try done; [by right|].
    exists nh. split; [done|].
    rewrite Hz2, Hz1 by done. rewrite Hfs1.
    unfold content_entries. by rewrite <- !app_assoc.
  - injection H as <- <-. split; [congruence|].
    exists evs, [GetMissingContentHashes keys]. simpl.
    rewrite Hh2, Hg2, Ht2, Ht1, <- app_assoc.
    repeat split; try done. by right.
Qed.

Lemma write_file_spec p c s r s' :
  write_file p c s = (r, s') ->
  (r = Return tt /\ ~ isdir (fs s) p = true /\
   s' = State (<[p := File c]> (fs s)) (trace s) (zipf s)
          (hash_to_file s) (file_to_hash s)) \/
  ((exists e, r = Raise e) /\ isdir (fs s) p = true /\ s' = s).
Proof.
  unfold write_file, set_fs, isdir. intros H.
  destruct (fs s !! p) as [[?|?]|]; inversion H; subst; eauto 6.
Qed.

(** What [assemble_zip] does to the store. *)
Lemma assemble_zip_spec inputs zip s r s' :
  assemble_zip E inputs zip s = (r, s') ->
  (fs s' = fs s \/ exists c, fs s' = <[zip := File c]> (fs s)) /\
  exists (evs q : list event),
    let keys := (map_to_list (hash_to_file s')).*1 in
    trace s' = trace s ++ evs ++ q /\
    (q = [] \/ q = [GetMissingContentHashes keys]) /\
    Forall (fun ev => is_hashing ev = true) evs /\
    Forall (fun f => isfile (fs s) f = true) (hashed evs) /\
    hash_to_file s' = record_h2f E (fs s) (hashed evs) ∅ /\
    file_to_hash s' = record_f2h E (fs s) (hashed evs) ∅ /\
    (r = Return tt ->
     q = [GetMissingContentHashes keys] /\
     hashed evs = hashed_paths E (fs s) inputs /\
     exists nh,
       getMissingContentHashes E keys = Return nh /\
       zipf s' =
         report_entries E (fs s) inputs ++
         content_entries (fs s) nh (file_to_hash s') ++
         [manifest E (file_to_hash s')] /\
       fs s' =
         <[zip := File (zlib_compress E (zip_bytes E (zipf s')))]> (fs s)).
Proof.
  unfold assemble_zip. intros H.
  apply bind_inv in H as [([] & s0 & H0 & H)|(e & H0 & _)];
    [|discriminate]. injection H0 as <-.
  apply bind_inv in H as [([] & s2 & Hwith & H)|(e & Hwith & ->)].
  - unfold try_finally in Hwith.
    destruct (fill_zip E inputs _) as [r1 s1] eqn:Hfill.
    apply fill_zip_spec in Hfill as (Hfs1 & evs & q & Hfill). simpl in *.
    unfold zipf_close, bind, get in Hwith. simpl in Hwith.
    destruct (write_file _ _ s1) as [rc sc] eqn:Hclose.
    apply write_file_spec in Hclose
      as [(-> & Hnd & ->)|((e & ->) & _ & ->)]; [|discriminate].
    injection Hwith as -> <-.
    unfold bind, read_file in H. simpl in H.
    rewrite lookup_insert_eq in H.
    destruct (write_file _ _ _) as [rw sw] eqn:Hw.
    apply write_file_spec in Hw as [(-> & _ & ->)|(_ & Hd & _)].
    2:{ unfold isdir in Hd. simpl in Hd.
        by rewrite lookup_insert_eq in Hd. }
    injection H as <- <-. simpl. rewrite insert_insert_eq, Hfs1.
    split; [eauto|]. exists evs, q.
    destruct Hfill as (Ht & Hq & Hc & Hf & Hh & Hg & Hret).
    destruct (Hret eq_refl) as (-> & Hpaths & nh & Hnh & Hz).
    repeat split; try done.
    exists nh. by rewrite Hz.
  - unfold try_finally in Hwith.
    destruct (fill_zip E inputs _) as [r1 s1] eqn:Hfill.
    apply fill_zip_spec in Hfill as (Hfs1 & evs & q & Hfill). simpl in *.
    unfold zipf_close, bind, get in Hwith. simpl in Hwith.
    destruct (write_file _ _ s1) as [rc sc] eqn:Hclose.
    destruct Hfill as (Ht & Hq & Hc & Hf & Hh & Hg & Hret).
    apply write_file_spec in Hclose
      as [(-> & Hnd & ->)|((e' & ->) & _ & ->)].
    + injection Hwith as -> <-. simpl. rewrite Hfs1.
      split; [eauto|]. exists evs, q. repeat split; done.
    + injection Hwith as <- <-.
      split; [eauto|]. exists evs, q. repeat split; done.
Qed.

(** The [try] suite after a successful assembly: the size check, the
    encoding and the store RPC. *)
Lemma upload_spec args run zip s r s' :
  upload E args run zip s = (r, s') ->
  exists ra sa,
    assemble_zip E (input_list args) zip s = (ra, sa) /\
    match ra with
    | Raise e => r = Raise e /\ s' = sa
    | Return _ =>
        exists c,
          fs sa !! zip = Some (File c) /\
          if (MAX_UPLOAD_SIZE <? N.of_nat (String.length c))%N
          then r = Raise (SystemExit 1) /\ s' = sa
          else
            let b64zip := Base64.b64encode c in
            r = massStoreRun E run (tag args) (context_version E) b64zip
                  (force args) /\
            s' = with_event sa
                   (MassStoreRun run (tag args) (context_version E) b64zip
                      (force args))
    end.
Proof.
  unfold upload. intros H.
  apply bind_inv in H as [([] & sa & Ha & H)|(e & Ha & ->)].
  2:{ exists (Raise e), s'. done. }
  exists (Return tt), sa. split; [done|].
  pose proof Ha as Hspec.
  apply assemble_zip_spec in Hspec as (_ & evs & q & Hspec).
  destruct Hspec as (_ & _ & _ & _ & _ & _ & Hret).
  destruct (Hret eq_refl) as (_ & _ & nh & _ & _ & Hfs).
  eexists. split; [rewrite Hfs; apply lookup_insert_eq|].
  unfold st_size, bind, read_file, ret, emit, lift in H.
  rewrite Hfs, lookup_insert_eq in H. simpl in H.
  destruct (_ <? _)%N.
  - by injection H as <- <-.
  - rewrite Hfs, lookup_insert_eq in H. simpl in H.
    by injection H as <- <-.
Qed.

Lemma assemble_zip_keeps_file inputs zip s r s' c0 :
  fs s !! zip = Some (File c0) ->
  assemble_zip E inputs zip s = (r, s') ->
  exists c, fs s' = <[zip := File c]> (fs s).
Proof.
  intros Hl H. apply assemble_zip_spec in H as ([->|?] & _); [|done].
  exists c0. by rewrite insert_id.
Qed.

Lemma upload_keeps_file args run zip s r s' c0 :
  fs s !! zip = Some (File c0) ->
  upload E args run zip s = (r, s') ->
  exists c, fs s' = <[zip := File c]> (fs s).
Proof.
  intros Hl H. apply upload_spec in H as (ra & sa & Ha & H).
  eapply assemble_zip_keeps_file in Ha as Hk; [|done].
  destruct ra as [[]|e].
  - destruct H as (c & _ & H). destruct (_ <? _)%N.
    + by destruct H as [_ ->].
    + by destruct H as [_ ->].
  - by destruct H as [_ ->].
Qed.

Lemma store_spec args run zip s r s' c0 :
  fs s !! zip = Some (File c0) ->
  store E args run zip s = (r, s') ->
  exists ru su,
    upload E args run zip s = (ru, su) /\
    r = match ru with
        | Return _ => Return tt
        | Raise e => if is_Exception e then Raise (SystemExit 1) else Raise e
        end /\
    s' = State (delete zip (fs s)) (trace su ++ [Remove zip]) (zipf su)
           (hash_to_file su) (file_to_hash su).
Proof.
  intros Hl. unfold store, try_finally, try_except. intros H.
  destruct (upload E args run zip s) as [ru su] eqn:Hu.
  exists ru, su. split; [done|].
  destruct (upload_keeps_file _ _ _ _ _ _ _ Hl Hu) as [c Hfs].
  assert (Hrm : forall s1, fs s1 = fs su -> trace s1 = trace su ->
            zipf s1 = zipf su -> hash_to_file s1 = hash_to_file su ->
            file_to_hash s1 = file_to_hash su ->
            os_remove zip s1 =
            (Return tt,
             State (delete zip (fs s)) (trace su ++ [Remove zip]) (zipf su)
               (hash_to_file su) (file_to_hash su))).
  { intros s1 H1 H2 H3 H4 H5. unfold os_remove, bind, emit, set_fs. simpl.
    rewrite H1, Hfs, lookup_insert_eq. simpl.
    rewrite ?H1, ?H2, ?H3, ?H4, ?H5, ?Hfs, delete_insert_eq. done. }
  destruct ru as [[]|e].
  - rewrite Hrm in H by done. by injection H as <- <-.
  - destruct (is_Exception e).
    + unfold raise in H. rewrite Hrm in H by done. by injection H as <- <-.
    + rewrite Hrm in H by done. by injection H as <- <-.
Qed.

Lemma collect_names_spec inputs : forall acc s,
  collect_names E inputs acc s =
  (match metadata_names E (fs s) inputs with
   | Return names => Return (acc ++ names)
   | Raise e => Raise e
   end, s).
Proof.
  induction inputs as [|p rest IH]; intros acc s; simpl.
  - unfold ret. by rewrite app_nil_r.
  - unfold bind, get, read_file, lift. simpl.
    destruct (isdir (fs s) p && exists_ (fs s) _); [|apply IH].
    destruct (fs s !! Path.join p "metadata.json") as [[c|?]|]; try done.
    destruct (json_load E c) as [metajson|e]; [|done].
    unfold declared_name.
    destruct (metajson !! "name") as [n|]; rewrite IH;
      destruct (metadata_names E (fs s) rest); simpl;
      by rewrite <- ?app_assoc.
Qed.

(** The [if 'name' not in args] block never touches the store. *)
Lemma run_name_spec args s :
  run_name E args s =
  (match name args with
   | Some n => Return n
   | None =>
       match metadata_names E (fs s) (input_list args) with
       | Return names =>
           match derived_name names with
           | Some n => Return n
           | None => Raise (SystemExit 2)
           end
       | Raise e => Raise e
       end
   end, s).
Proof.
  unfold run_name. destruct (name args) as [n|]; [done|].
  unfold __get_run_name, bind. rewrite collect_names_spec. simpl.
  destruct (metadata_names E (fs s) (input_list args))
    as [[|n [|n' names]]|e]; try done.
  - simpl. unfold ret, raise.
    destruct (String.eqb n "unnamed result folder"); simpl; [done|].
    by destruct (String.eqb n "").
Qed.

(** How [main] ends: it stops before the temporary file exists, having
    made at most the three calls of the permission check, or it runs
    the [try] statement on a freshly created temporary file. *)
Lemma main_cases args s r s' :
  main E args s = (r, s') ->
  (exists e (evs : list event),
     r = Raise e /\
     s' = State (fs s) (trace s ++ evs) (zipf s) (hash_to_file s)
            (file_to_hash s) /\
     Forall (fun ev => is_prelude ev = true) evs /\
     (forall pid, CheckPermission pid ∈ evs ->
        getCurrentProduct E = Return pid /\
        (check_permission E pid = Return false -> e = SystemExit 1))) \/
  (exists run pid,
     run_name E args s = (Return run, s) /\
     getCurrentProduct E = Return pid /\
     check_permission E pid = Return true /\
     let zip_file := mkstemp E (fs s) in
     store E args run zip_file
       (State (<[zip_file := File ""]> (fs s))
          (trace s ++ [GetCurrentProduct; CheckPermission pid;
                       SetupClient (product_url args); Mkstemp zip_file])
          (zipf s) (hash_to_file s) (file_to_hash s)) = (r, s')).
Proof.
  unfold main. intros H.
  assert (Hsame : s = State (fs s) (trace s ++ []) (zipf s)
                        (hash_to_file s) (file_to_hash s)).
  { rewrite app_nil_r. by destruct s. }
  apply bind_inv in H as [([] & s1 & Hz & H)|(e & Hz & ->)].
  2:{ left. exists e, []. destruct (check_zlib E); [done|].
      injection Hz as _ <-.
      split; [done|]. split; [done|]. split; [constructor|].
      intros pid Hin. by apply elem_of_nil in Hin. }
  assert (s1 = s) as -> by (destruct (check_zlib E); by inversion Hz).
  clear Hz.
  apply bind_inv in H as [(run & s1 & Hrun & H)|(e & Hrun & ->)];
    pose proof (run_name_spec args s) as Hrs; rewrite Hrs in Hrun.
  2:{ left. exists e, []. injection Hrun as _ <-.
      split; [done|]. split; [done|]. split; [constructor|].
      intros pid Hin. by apply elem_of_nil in Hin. }
  injection Hrun as Hrun <-. rewrite Hrun in Hrs.
  unfold bind, lift, emit, get, set_fs, ret, raise in H. simpl in H.
  destruct (split_product_url E (product_url args)) as [url|e].
  2:{ left. exists e, []. injection H as <- <-.
      split; [done|]. split; [done|]. split; [constructor|].
      intros pid Hin. by apply elem_of_nil in Hin. }
  destruct (getCurrentProduct E) as [pid|e] eqn:Hpid.
  2:{ left. exists e, [GetCurrentProduct]. injection H as <- <-.
      split; [done|]. split; [done|]. split; [by repeat constructor|].
      intros pid Hin. apply list_elem_of_singleton in Hin. done. }
  assert (Hpre : forall e (evs : list event),
            evs = [GetCurrentProduct; CheckPermission pid] \/
            evs = [GetCurrentProduct; CheckPermission pid;
                   SetupClient (product_url args)] ->
            (check_permission E pid = Return false -> e = SystemExit 1) ->
            Forall (fun ev => is_prelude ev = true) evs /\
            (forall pid', CheckPermission pid' ∈ evs ->
               @Return Z pid = Return pid' /\
               (check_permission E pid' = Return false ->
                e = SystemExit 1))).
  { intros e evs Hevs He. split.
    - destruct Hevs as [-> | ->]; by repeat constructor.
    - intros pid' Hin.
      assert (pid' = pid) as ->; [|done].
      destruct Hevs as [-> | ->];
        repeat (apply elem_of_cons in Hin as [Hin|Hin];
                [by inversion Hin|]);
        by apply elem_of_nil in Hin. }
  destruct (check_permission E pid) as [[|]|e] eqn:Hperm; simpl in H.
  - destruct (setup_client E (product_url args)) as [[]|e].
    + right. exists run, pid. repeat split; try done.
      simpl. rewrite <- H. f_equal. f_equal.
      by rewrite <- !app_assoc.
    + left. exists e,
        [GetCurrentProduct; CheckPermission pid;
         SetupClient (product_url args)].
      injection H as <- <-. rewrite <- !app_assoc.
      split; [done|]. split; [done|]. apply Hpre; [by right|done].
  - left. exists (SystemExit 1), [GetCurrentProduct; CheckPermission pid].
    injection H as <- <-. rewrite <- !app_assoc.
    split; [done|]. split; [done|]. apply Hpre; [by left|done].
  - left. exists e, [GetCurrentProduct; CheckPermission pid].
    injection H as <- <-. rewrite <- !app_assoc.
    split; [done|]. split; [done|]. apply Hpre; [by left|done].
Qed.

Lemma hashing_is_upload (evs : list event) :
  Forall (fun ev => is_hashing ev = true) evs ->
  Forall (fun ev => is_upload ev = true) evs.
Proof. intros H. eapply Forall_impl; [exact H|]. by intros []. Qed.

Lemma hashing_no_store (evs : list event) run tg ver p f :
  Forall (fun ev => is_hashing ev = true) evs ->
  MassStoreRun run tg ver p f ∉ evs.
Proof.
  intros Hall Hin. rewrite Forall_forall in Hall.
  by specialize (Hall _ Hin).
Qed.

(** The calls of the [try] suite: parsing, hashing, at most one query,
    and a store call only for a bundle within the ceiling. *)
Lemma upload_events args run zip s r s' :
  upload E args run zip s = (r, s') ->
  exists evs : list event,
    trace s' = trace s ++ evs /\
    Forall (fun ev => is_upload ev = true) evs /\
    forall run' tg ver p f,
      MassStoreRun run' tg ver p f ∈ evs ->
      let bundle := zlib_compress E (zip_bytes E (zipf s')) in
      run' = run /\ p = Base64.b64encode bundle /\
      (N.of_nat (String.length bundle) <= MAX_UPLOAD_SIZE)%N.
Proof.
  intros H. apply upload_spec in H as (ra & sa & Ha & H).
  apply assemble_zip_spec in Ha as (_ & evs & q & Ha).
  destruct Ha as (Ht & Hq & Hc & _ & _ & _ & Hret).
  assert (Hup : Forall (fun ev => is_upload ev = true) (evs ++ q)).
  { apply Forall_app. split; [by apply hashing_is_upload|].
    destruct Hq as [-> | ->]; by repeat constructor. }
  assert (Hno : forall run' tg ver p f,
            MassStoreRun run' tg ver p f ∉ evs ++ q).
  { intros run' tg ver p f Hin. apply elem_of_app in Hin as [Hin|Hin].
    - by eapply hashing_no_store.
    - destruct Hq as [-> | ->].
      + by apply elem_of_nil in Hin.
      + by apply list_elem_of_singleton in Hin. }
  destruct ra as [[]|e].
  - destruct H as (c & Hl & H).
    destruct (Hret eq_refl) as (_ & _ & nh & _ & _ & Hfs).
    rewrite Hfs, lookup_insert_eq in Hl. injection Hl as <-.
    destruct (_ <? _)%N eqn:Hsz.
    + destruct H as [-> ->]. exists (evs ++ q).
      split; [done|]. split; [done|]. intros ? ? ? ? ? Hin.
      by apply Hno in Hin.
    + destruct H as [-> ->]. simpl.
      exists ((evs ++ q) ++ [MassStoreRun run (tag args)
                (context_version E)
                (Base64.b64encode
                   (zlib_compress E (zip_bytes E (zipf sa))))
                (force args)]).
      split; [by rewrite Ht, !app_assoc|].
      split; [apply Forall_app; split; [done|by repeat constructor]|].
      intros run' tg ver p f Hin.
      apply elem_of_app in Hin as [Hin|Hin]; [by apply Hno in Hin|].
      apply list_elem_of_singleton in Hin. injection Hin as -> _ _ -> _.
      split; [done|]. split; [done|]. by apply N.ltb_ge.
  - destruct H as [-> ->]. exists (evs ++ q).
    split; [done|]. split; [done|]. intros ? ? ? ? ? Hin.
    by apply Hno in Hin.
Qed.

(** A run of [main] that gets past the permission check: the calls it
    makes and the disk it leaves. *)
Lemma main_store_events args s r s' run pid :
  let zip_file := mkstemp E (fs s) in
  store E args run zip_file
    (State (<[zip_file := File ""]> (fs s))
       (trace s ++ [GetCurrentProduct; CheckPermission pid;
                    SetupClient (product_url args); Mkstemp zip_file])
       (zipf s) (hash_to_file s) (file_to_hash s)) = (r, s') ->
  fs s' = delete zip_file (fs s) /\
  exists evs : list event,
    trace s' =
      trace s ++
      [GetCurrentProduct; CheckPermission pid;
       SetupClient (product_url args); Mkstemp zip_file] ++
      evs ++ [Remove zip_file] /\
    Forall (fun ev => is_upload ev = true) evs /\
    forall run' tg ver p f,
      MassStoreRun run' tg ver p f ∈ evs ->
      let bundle := zlib_compress E (zip_bytes E (zipf s')) in
      run' = run /\ p = Base64.b64encode bundle /\
      (N.of_nat (String.length bundle) <= MAX_UPLOAD_SIZE)%N.
Proof.
  intros zip_file H.
  eapply store_spec in H as (ru & su & Hu & _ & ->);
    [|simpl; apply lookup_insert_eq].
  simpl. split; [apply delete_insert_eq|].
  apply upload_events in Hu as (evs & Ht & Hup & Hst). simpl in Ht.
  exists evs. split; [|done].
  rewrite Ht. by rewrite <- !app_assoc.
Qed.

(** C3.  If the permission check denies store authority for the
    resolved product, [main] ends with an exception, leaves the disk as
    it found it, and its trace holds no bundling call: no temporary
    file, no report parsing, no hashing, no missing-hash query and no
    store RPC.  Whenever the check was reached, the exit status is 1. *)
Theorem permission_denied_before_bundling args disk r s' :
  (forall pid, getCurrentProduct E = Return pid ->
               check_permission E pid = Return false) ->
  main E args (init_state disk) = (r, s') ->
  (exists e, r = Raise e) /\
  fs s' = disk /\ zipf s' = [] /\
  hash_to_file s' = ∅ /\ file_to_hash s' = ∅ /\
  Forall (fun ev => bundling_event ev = false) (trace s') /\
  (forall pid, CheckPermission pid ∈ trace s' -> r = Raise (SystemExit 1)).
Proof.
  intros Hdeny H.
  apply main_cases in H
    as [(e & evs & -> & -> & Hpre & Hperm)|(run & pid & _ & Hp & Hc & _)].
  - simpl. split; [eauto|]. repeat split; try done.
    + eapply Forall_impl; [exact Hpre|]. by intros [].
    + intros pid Hin. destruct (Hperm pid Hin) as [Hp He].
      f_equal. auto.
  - rewrite (Hdeny _ Hp) in Hc. discriminate.
Qed.

(** C5.  Whenever [main] got as far as creating the temporary bundle
    file [z], that file is absent from the disk when [main] ends, however
    it ends; the rest of the disk is as before, and removing [z] is the
    last thing [main] did. *)
Theorem temporary_file_removed args disk r s' z :
  main E args (init_state disk) = (r, s') ->
  Mkstemp z ∈ trace s' ->
  fs s' !! z = None /\
  fs s' = delete z disk /\
  last (trace s') = Some (Remove z).
Proof.
  intros H Hin.
  apply main_cases in H
    as [(e & evs & -> & -> & Hpre & _)|(run & pid & _ & _ & _ & H)].
  - simpl in Hin. rewrite Forall_forall in Hpre.
    by specialize (Hpre _ Hin).
  - apply main_store_events in H as (Hfs & evs & Ht & Hup & _).
    simpl in *. rewrite Ht in Hin.
    assert (z = mkstemp E disk) as ->.
    { repeat (apply elem_of_cons in Hin as [Hin|Hin];
              [by inversion Hin|]).
      apply elem_of_app in Hin as [Hin|Hin].
      - rewrite Forall_forall in Hup. by specialize (Hup _ Hin).
      - by apply list_elem_of_singleton in Hin. }
    rewrite Hfs, Ht. split; [apply lookup_delete_eq|]. split; [done|].
    by rewrite !app_comm_cons, last_snoc.
Qed.

(** C4, as amended.  Whenever [main] issues the store RPC, its payload is
    the base64 encoding of the compressed bundle, and that bundle is at
    most [MAX_UPLOAD_SIZE] bytes long: a larger bundle makes [main] stop
    before the RPC.  The bound is on the bundle, not on its encoding. *)
Theorem stored_bundle_within_ceiling args disk r s' run tg ver payload f :
  main E args (init_state disk) = (r, s') ->
  MassStoreRun run tg ver payload f ∈ trace s' ->
  let bundle := zlib_compress E (zip_bytes E (zipf s')) in
  payload = Base64.b64encode bundle /\
  (N.of_nat (String.length bundle) <= MAX_UPLOAD_SIZE)%N.
Proof.
  intros H Hin.
  apply main_cases in H
    as [(e & evs & -> & -> & Hpre & _)|(run0 & pid & _ & _ & _ & H)].
  - simpl in Hin. rewrite Forall_forall in Hpre.
    by specialize (Hpre _ Hin).
  - apply main_store_events in H as (_ & evs & Ht & _ & Hst).
    simpl in Ht. rewrite Ht in Hin.
    repeat (apply elem_of_cons in Hin as [Hin|Hin]; [by inversion Hin|]).
    apply elem_of_app in Hin as [Hin|Hin].
    + by destruct (Hst _ _ _ _ _ Hin) as (_ & ? & ?).
    + by apply list_elem_of_singleton in Hin.
Qed.

(** C10.  Once [assemble_zip] has left a compressed bundle [c] in the
    temporary file, the rest of the [try] suite issues the store RPC
    exactly when [c] is at most 2^30 bytes long, a bundle of exactly
    2^30 bytes included; only a strictly larger one ends it with exit
    status 1 and no RPC. *)
Theorem size_check_is_strict args run zip s sa c r s' :
  assemble_zip E (input_list args) zip s = (Return tt, sa) ->
  fs sa !! zip = Some (File c) ->
  upload E args run zip s = (r, s') ->
  let size := N.of_nat (String.length c) in
  let call :=
    MassStoreRun run (tag args) (context_version E) (Base64.b64encode c)
      (force args) in
  if (size <=? 1073741824)%N
  then trace s' = trace sa ++ [call] /\
       r = massStoreRun E run (tag args) (context_version E)
             (Base64.b64encode c) (force args)
  else trace s' = trace sa /\ r = Raise (SystemExit 1).
Proof.
  intros Ha Hl H. apply upload_spec in H as (ra & sa' & Ha' & H).
  rewrite Ha in Ha'. injection Ha' as <- <-.
  destruct H as (c' & Hl' & H). rewrite Hl in Hl'. injection Hl' as <-.
  simpl. rewrite N.leb_antisym.
  change 1073741824%N with MAX_UPLOAD_SIZE.
  destruct (_ <? _)%N; simpl.
  - by destruct H as [-> ->].
  - by destruct H as [-> ->].
Qed.


(** *** The two dictionaries *)

Lemma record_f2h_lookup disk files m f :
  f ∈ files -> record_f2h E disk files m !! f = Some (digest E disk f).
Proof.
  unfold record_f2h. revert m.
  induction files as [|g files IH] using rev_ind; intros m Hin.
  - by apply elem_of_nil in Hin.
  - rewrite foldl_app. simpl.
    destruct (decide (g = f)) as [->|Hne].
    + apply lookup_insert_eq.
    + rewrite lookup_insert_ne by done. apply IH.
      apply elem_of_app in Hin as [Hin|Hin]; [done|].
      apply list_elem_of_singleton in Hin. congruence.
Qed.

Lemma record_f2h_dom disk files f h :
  record_f2h E disk files ∅ !! f = Some h -> f ∈ files.
Proof.
  unfold record_f2h.
  induction files as [|g files IH] using rev_ind; simpl.
  - by rewrite lookup_empty.
  - rewrite foldl_app. simpl. intros Hl. apply elem_of_app.
    destruct (decide (g = f)) as [->|Hne].
    + right. by apply list_elem_of_singleton.
    + left. apply IH. by rewrite lookup_insert_ne in Hl.
Qed.

Lemma record_h2f_last disk before f after m :
  (forall g, g ∈ after -> digest E disk g <> digest E disk f) ->
  record_h2f E disk (before ++ f :: after) m !! digest E disk f = Some f.
Proof.
  unfold record_h2f.
  induction after as [|g after IH] using rev_ind; intros Hlater.
  - rewrite foldl_app. simpl. apply lookup_insert_eq.
  - rewrite app_comm_cons, app_assoc, foldl_app. simpl.
    rewrite lookup_insert_ne.
    + apply IH. intros g' Hin. apply Hlater, elem_of_app. by left.
    + apply Hlater, elem_of_app. right. by apply list_elem_of_singleton.
Qed.

Lemma record_h2f_is_Some disk files m f :
  f ∈ files -> is_Some (record_h2f E disk files m !! digest E disk f).
Proof.
  unfold record_h2f. revert m.
  induction files as [|g files IH] using rev_ind; intros m Hin.
  - by apply elem_of_nil in Hin.
  - rewrite foldl_app. simpl.
    destruct (decide (digest E disk g = digest E disk f)) as [->|Hne].
    + rewrite lookup_insert_eq. eauto.
    + rewrite lookup_insert_ne by done. apply IH.
      apply elem_of_app in Hin as [Hin|Hin]; [done|].
      apply list_elem_of_singleton in Hin. congruence.
Qed.

Lemma queries_app (tr1 tr2 : list event) :
  queries (tr1 ++ tr2) = queries tr1 ++ queries tr2.
Proof.
  induction tr1 as [|ev tr1 IH]; simpl; [done|].
  destruct ev; simpl; by rewrite ?IH.
Qed.

Lemma queries_hashing (evs : list event) :
  Forall (fun ev => is_hashing ev = true) evs -> queries evs = [].
Proof.
  induction 1 as [|ev evs Hev _ IH]; [done|].
  by destruct ev.
Qed.

Lemma hashed_query (evs q : list event) keys :
  q = [] \/ q = [GetMissingContentHashes keys] ->
  hashed (evs ++ q) = hashed evs.
Proof.
  intros [-> | ->]; rewrite hashed_app; simpl; by rewrite app_nil_r.
Qed.

(** C1, as amended.  After an assembly the path-to-hash dictionary has
    an entry, with the file's own hash, for every path that was hashed,
    duplicates of content included; the hash-to-path dictionary holds,
    for each hash, the path hashed LAST among those with that hash.  The
    paths hashed are those the trace shows, which for a completed
    assembly are exactly [hashed_paths]. *)
Theorem hash_to_file_last_writer_wins inputs zip s r s' :
  assemble_zip E inputs zip s = (r, s') ->
  let processed := hashed (since s s') in
  (r = Return tt -> processed = hashed_paths E (fs s) inputs) /\
  (forall f, f ∈ processed ->
     isfile (fs s) f = true /\
     file_to_hash s' !! f = Some (digest E (fs s) f)) /\
  (forall before f after,
     processed = before ++ f :: after ->
     (forall g, g ∈ after -> digest E (fs s) g <> digest E (fs s) f) ->
     hash_to_file s' !! digest E (fs s) f = Some f).
Proof.
  intros H. apply assemble_zip_spec in H as (_ & evs & q & H).
  destruct H as (Ht & Hq & _ & Hf & Hh & Hg & Hret). simpl.
  rewrite (since_app _ _ _ Ht), (hashed_query _ _ _ Hq).
  split; [|split].
  - intros Hr. by destruct (Hret Hr) as (_ & ? & _).
  - intros f Hin. split.
    + rewrite Forall_forall in Hf. by apply Hf.
    + rewrite Hg. by apply record_f2h_lookup.
  - intros before f after Hsplit Hlater.
    rewrite Hh, Hsplit. by apply record_h2f_last.
Qed.

Lemma record_f2h_inv disk files f h :
  record_f2h E disk files ∅ !! f = Some h ->
  f ∈ files /\ h = digest E disk f.
Proof.
  intros H. pose proof (record_f2h_dom _ _ _ _ H) as Hin.
  split; [done|].
  rewrite (record_f2h_lookup _ _ ∅ _ Hin) in H. by injection H.
Qed.

Lemma record_h2f_inv disk files h f :
  record_h2f E disk files ∅ !! h = Some f ->
  f ∈ files /\ h = digest E disk f.
Proof.
  unfold record_h2f. induction files as [|x files IH] using rev_ind.
  { simpl. by rewrite lookup_empty. }
  rewrite foldl_app. simpl. intros H.
  apply lookup_insert_Some in H as [[<- <-]|[_ H]].
  - split; [|done]. apply elem_of_app. right. by apply list_elem_of_singleton.
  - apply IH in H as [H ->]. split; [|done]. apply elem_of_app. by left.
Qed.

Lemma regular_prefix_all disk files :
  forallb (isfile disk) files = true -> regular_prefix disk files = files.
Proof.
  induction files as [|f files IH]; [done|]. simpl.
  destruct (isfile disk f); [|done]. simpl. intros H. by rewrite IH.
Qed.

(** Every file a surviving report references gets hashed. *)
Lemma surviving_hashed disk inputs f :
  f ∈ surviving_paths E disk inputs -> f ∈ hashed_paths E disk inputs.
Proof.
  unfold surviving_paths, hashed_paths.
  rewrite !list_elem_of_In, !in_flat_map.
  intros (raw & Hraw & Hf). exists raw. split; [done|].
  apply in_flat_map in Hf as (g & Hg & Hf). apply in_flat_map.
  exists g. split; [done|].
  unfold file_surviving in Hf. unfold file_hashed.
  destruct (Str.endswith g ".plist"); [|done]. simpl in Hf.
  destruct (survives E disk _) eqn:Hs; [|done].
  unfold survives in Hs. unfold plist_referenced in Hf.
  unfold plist_hashed.
  destruct (disk !! Path.join (abspath E raw) g) as [[c|names]|]; try done.
  destruct (parse_plist E c) as [files|]; [|done].
  by rewrite regular_prefix_all.
Qed.

(** C7, as amended.  A completed assembly hashes, among others, every
    file that a surviving report references, and queries the remote
    exactly once, with a list without duplicates that holds exactly the
    hashes of the hashed paths.  Two distinct hashed paths with the
    same bytes are given one and the same hash in the path-to-hash
    dictionary, the digest of those bytes, and that hash occurs exactly
    once in the query. *)
Theorem identical_files_share_one_queried_hash inputs zip s s' :
  assemble_zip E inputs zip s = (Return tt, s') ->
  let paths := hashed_paths E (fs s) inputs in
  (forall f, f ∈ surviving_paths E (fs s) inputs -> f ∈ paths) /\
  exists keys,
    queries (since s s') = [keys] /\
    keys = (map_to_list (hash_to_file s')).*1 /\
    NoDup keys /\
    (forall k,
       k ∈ keys <->
       exists f, f ∈ paths /\ k = sha256_hexdigest E (content (fs s) f)) /\
    forall f1 f2,
      f1 ∈ paths -> f2 ∈ paths -> f1 <> f2 ->
      content (fs s) f1 = content (fs s) f2 ->
      let h := sha256_hexdigest E (content (fs s) f1) in
      file_to_hash s' !! f1 = Some h /\
      file_to_hash s' !! f2 = Some h /\
      count_occ string_dec keys h = 1.
Proof.
  intros H. simpl. split; [apply surviving_hashed|].
  apply assemble_zip_spec in H as (_ & evs & q & H).
  destruct H as (Ht & _ & Hc & _ & Hh & Hg & Hret).
  destruct (Hret eq_refl) as (-> & Hpaths & _).
  rewrite <- Hpaths.
  exists ((map_to_list (hash_to_file s')).*1).
  assert (Hkeys : forall f,
            f ∈ hashed evs ->
            digest E (fs s) f ∈ (map_to_list (hash_to_file s')).*1).
  { intros f Hf.
    destruct (record_h2f_is_Some (fs s) (hashed evs) ∅ f Hf) as [g Hl].
    rewrite <- Hh in Hl.
    apply (list_elem_of_fmap_2' fst _ (digest E (fs s) f, g)); [|done].
    by apply elem_of_map_to_list. }
  split.
  { rewrite (since_app _ _ _ Ht), queries_app, queries_hashing by done.
    done. }
  split; [done|]. split; [apply NoDup_fst_map_to_list|]. split.
  - intros k. split.
    + intros Hk. apply list_elem_of_fmap in Hk as ([k' f] & -> & Hk).
      apply elem_of_map_to_list in Hk. rewrite Hh in Hk.
      apply record_h2f_inv in Hk as [Hf ->]. by exists f.
    + intros (f & Hf & ->). by apply Hkeys.
  - intros f1 f2 Hf1 Hf2 _ Hsame.
    split; [rewrite Hg; by apply record_f2h_lookup|].
    split; [rewrite Hg, Hsame; by apply record_f2h_lookup|].
    apply NoDup_count_occ';
      [apply NoDup_ListNoDup, NoDup_fst_map_to_list|].
    apply list_elem_of_In. by apply Hkeys.
Qed.

(** *** The archive *)

Lemma startswith_slash x :
  Str.startswith x "/" = true -> exists x', x = String "/" x'.
Proof.
  unfold Str.startswith. destruct x as [|c x]; [done|].
  cbn [String.prefix]. destruct (ascii_dec "/" c) as [<-|_]; [eauto|done].
Qed.









(** C9, as amended.  A [metadata.json] listed in an input directory is
    copied into every completed archive as [reports/metadata.json],
    byte for byte, whatever happens to the reports; handling it is one
    [zipf.write] and nothing else (no parsing, no hashing).  A
    [metadata.json] passed as an input path itself is not covered. *)
Theorem directory_metadata_always_bundled inputs zip s s' raw c :
  assemble_zip E inputs zip s = (Return tt, s') ->
  raw ∈ inputs ->
  "metadata.json" ∈ walk_files (fs s) (abspath E raw) ->
  fs s !! Path.join (abspath E raw) "metadata.json" = Some (File c) ->
  ZipEntry "reports/metadata.json" c ∈ zipf s' /\
  add_file E (abspath E raw) "metadata.json" =
    zipf_write (Path.join (abspath E raw) "metadata.json")
      "reports/metadata.json".
Proof.
  intros H Hraw Hlisted Hl. split; [|done].
  apply assemble_zip_spec in H as (_ & evs & q & H).
  destruct H as (_ & _ & _ & _ & _ & _ & Hret).
  destruct (Hret eq_refl) as (_ & _ & nh & _ & -> & _).
  apply elem_of_app. left.
  apply list_elem_of_In, in_flat_map. exists raw.
  split; [by apply list_elem_of_In|].
  apply in_flat_map. exists "metadata.json". split.
  - unfold listed, isfile, walk_files in *.
    destruct (fs s !! abspath E raw) as [[?|names]|];
      try by apply elem_of_nil in Hlisted.
    by apply list_elem_of_In in Hlisted.
  - unfold file_entries, member. simpl. rewrite Hl. by left.
Qed.

(** *** The run name *)

(** C8, as amended.  With no [--name], the run name comes from the
    [metadata.json] files of the input directories, each contributing
    the name it declares or, failing that, ["unnamed result folder"]:
    one such file gives its name; two or more give ["multiple projects:
    "] followed by all the labels joined by [", "]; none, or a single
    one whose label is the placeholder or empty, ends [main] with exit
    status 2.  The derived name is the one the store RPC is called
    with. *)
Theorem run_name_derivation args s names :
  name args = None ->
  metadata_names E (fs s) (input_list args) = Return names ->
  run_name E args s =
    (match derived_name names with
     | Some n => Return n
     | None => Raise (SystemExit 2)
     end, s) /\
  (derived_name names = None -> check_zlib E = true ->
   main E args s = (Raise (SystemExit 2), s)) /\
  (forall r s' run tg ver p f,
     main E args s = (r, s') ->
     MassStoreRun run tg ver p f ∈ since s s' ->
     derived_name names = Some run).
Proof.
  intros Hname Hnames.
  assert (Hrun : run_name E args s =
                 (match derived_name names with
                  | Some n => Return n
                  | None => Raise (SystemExit 2)
                  end, s)).
  { by rewrite run_name_spec, Hname, Hnames. }
  split; [done|]. split.
  - intros Hnone Hz. unfold main, bind. rewrite Hz. simpl.
    by rewrite Hrun, Hnone.
  - intros r s' run tg ver p f H Hin.
    apply main_cases in H
      as [(e & evs & -> & -> & Hpre & _)|(run0 & pid & Hr & _ & _ & H)].
    + rewrite (since_app s _ evs) in Hin by done.
      rewrite Forall_forall in Hpre. by specialize (Hpre _ Hin).
    + apply main_store_events in H as (_ & evs & Ht & _ & Hst).
      rewrite (since_app _ _ _ Ht) in Hin.
      repeat (apply elem_of_cons in Hin as [Hin|Hin];
              [by inversion Hin|]).
      apply elem_of_app in Hin as [Hin|Hin];
        [|by apply list_elem_of_singleton in Hin].
      destruct (Hst _ _ _ _ _ Hin) as (-> & _).
      rewrite Hrun in Hr. by destruct (derived_name names); inversion Hr.
Qed.

End Properties.

(** * The properties on sample runs *)

Lemma permission_denied_witness :
  (exists e, denied_run.1 = Raise e) /\
  fs denied_run.2 = sample_disk /\ zipf denied_run.2 = [] /\
  hash_to_file denied_run.2 = ∅ /\ file_to_hash denied_run.2 = ∅ /\
  Forall (fun ev => bundling_event ev = false) (trace denied_run.2) /\
  (forall pid, CheckPermission pid ∈ trace denied_run.2 ->
               denied_run.1 = Raise (SystemExit 1)).
Proof.
  apply (permission_denied_before_bundling
           (sample_env false (fun keys => keys) (fun c => "z" +:+ c))
           (sample_args ["/r"] None) sample_disk).
  - intros pid _. reflexivity.
  - its_run.
Defined.

Lemma temporary_file_removed_witness :
  fs sample_run.2 !! "/tmp/tmp0.zip" = None /\
  fs sample_run.2 = delete "/tmp/tmp0.zip" sample_disk /\
  last (trace sample_run.2) = Some (Remove "/tmp/tmp0.zip").
Proof.
  apply (temporary_file_removed plain_env (sample_args ["/r"] None)
           sample_disk sample_run.1).
  - its_run.
  - in_list.
Defined.

Lemma stored_bundle_within_ceiling_witness :
  let bundle := zlib_compress plain_env
                  (zip_bytes plain_env (zipf sample_run.2)) in
  Base64.b64encode bundle = Base64.b64encode bundle /\
  (N.of_nat (String.length bundle) <= MAX_UPLOAD_SIZE)%N.
Proof.
  apply (stored_bundle_within_ceiling plain_env (sample_args ["/r"] None)
           sample_disk sample_run.1 sample_run.2 "proj" None "6.0" _ false).
  - its_run.
  - in_list.
Defined.

Lemma size_check_is_strict_witness :
  trace (upload plain_env (sample_args ["/r"] None) "proj" "/tmp/tmp0.zip"
           (staged sample_disk)).2 =
  trace sample_assembly.2 ++
  [MassStoreRun "proj" None "6.0"
     (Base64.b64encode
        (zlib_compress plain_env
           (zip_bytes plain_env (zipf sample_assembly.2))))
     false].
Proof.
  pose proof
    (size_check_is_strict plain_env (sample_args ["/r"] None) "proj"
       "/tmp/tmp0.zip" (staged sample_disk) sample_assembly.2
       (zlib_compress plain_env
          (zip_bytes plain_env (zipf sample_assembly.2)))
       (upload plain_env (sample_args ["/r"] None) "proj" "/tmp/tmp0.zip"
          (staged sample_disk)).1
       (upload plain_env (sample_args ["/r"] None) "proj" "/tmp/tmp0.zip"
          (staged sample_disk)).2
       ltac:(its_run) ltac:(its_run) ltac:(its_run)) as H.
  vm_compute in H. vm_compute. exact (proj1 H).
Defined.

Lemma last_writer_wins_witness :
  hash_to_file sample_assembly.2
    !! digest plain_env (staged sample_disk).(fs) "/src/a.c"
  = Some "/src/b.c".
Proof.
  destruct (hash_to_file_last_writer_wins plain_env ["/r"] "/tmp/tmp0.zip"
              (staged sample_disk) sample_assembly.1 sample_assembly.2
              ltac:(its_run)) as (_ & _ & Hlast).
  replace (digest plain_env (fs (staged sample_disk)) "/src/a.c")
    with (digest plain_env (fs (staged sample_disk)) "/src/b.c")
    by (vm_compute; reflexivity).
  apply (Hlast ["/src/a.c"] "/src/b.c" []).
  - vm_compute. reflexivity.
  - intros g Hg. by apply elem_of_nil in Hg.
Defined.

Lemma identical_files_witness :
  file_to_hash sample_assembly.2 !! "/src/a.c" = Some "sha(int x;)" /\
  file_to_hash sample_assembly.2 !! "/src/b.c" = Some "sha(int x;)" /\
  count_occ string_dec (map_to_list (hash_to_file sample_assembly.2)).*1
    "sha(int x;)" = 1.
Proof.
  destruct (identical_files_share_one_queried_hash plain_env ["/r"]
              "/tmp/tmp0.zip" (staged sample_disk) sample_assembly.2)
    as (_ & keys & _ & -> & _ & _ & Hpair); [its_run|].
  apply (Hpair "/src/a.c" "/src/b.c").
  - in_list.
  - in_list.
  - discriminate.
  - vm_compute. reflexivity.
Defined.


Lemma directory_metadata_witness :
  ZipEntry "reports/metadata.json" "proj" ∈ zipf sample_assembly.2 /\
  add_file plain_env (abspath plain_env "/r") "metadata.json" =
    zipf_write (Path.join (abspath plain_env "/r") "metadata.json")
      "reports/metadata.json".
Proof.
  apply (directory_metadata_always_bundled plain_env ["/r"] "/tmp/tmp0.zip"
           (staged sample_disk)).
  - its_run.
  - in_list.
  - in_list.
  - vm_compute. reflexivity.
Defined.

Lemma run_name_derivation_witness :
  run_name plain_env (sample_args ["/r"] None) (init_state sample_disk) =
  (Return "proj", init_state sample_disk).
Proof.
  apply (run_name_derivation plain_env (sample_args ["/r"] None)
           (init_state sample_disk) ["proj"]).
  - reflexivity.
  - vm_compute. reflexivity.
Defined.

(** ** Where the handler differs from what was claimed *)

(** C1 as stated fails: in the sample assembly [/src/a.c] is the first
    path hashed with its hash, yet the hash's representative is
    [/src/b.c], hashed after it. *)
Lemma first_writer_does_not_win :
  ~ first_writer_wins plain_env ["/r"] "/tmp/tmp0.zip" (staged sample_disk).
Proof.
  intros H.
  specialize (H sample_assembly.1 sample_assembly.2 [] "/src/a.c"
                ["/src/b.c"]).
  assert (H1 : assemble_zip plain_env ["/r"] "/tmp/tmp0.zip"
                 (staged sample_disk)
               = (sample_assembly.1, sample_assembly.2)) by its_run.
  specialize (H H1).
  assert (H2 : hashed (since (staged sample_disk) sample_assembly.2)
               = [] ++ "/src/a.c" :: ["/src/b.c"]) by its_run.
  specialize (H H2).
  assert (H3 : forall g, g ∈ [] ->
                 digest plain_env (fs (staged sample_disk)) g <>
                 digest plain_env (fs (staged sample_disk)) "/src/a.c").
  { intros g Hg. apply elem_of_nil in Hg. destruct Hg. }
  specialize (H H3). vm_compute in H. discriminate H.
Qed.

(** C2: the code at a report whose second source is gone.  The report is
    not in the archive, but the source hashed before the missing one was
    found stays in both dictionaries, is sent to the remote in the
    reconciliation query, is stored as a content member and is listed in
    the manifest. *)
Theorem dropped_report_leaves_hashes :
  stale_assembly.1 = Return tt /\
  survives plain_env (fs (staged stale_disk)) "/r/B.plist" = false /\
  report_entries plain_env (fs (staged stale_disk)) ["/r"] = [] /\
  file_to_hash stale_assembly.2 !! "/src/a.c" = Some "sha(int x;)" /\
  hash_to_file stale_assembly.2 !! "sha(int x;)" = Some "/src/a.c" /\
  queries (trace stale_assembly.2) = [["sha(int x;)"]] /\
  zipf stale_assembly.2 =
    [ZipEntry "root/src/a.c" "int x;";
     ZipEntry "content_hashes.json" "/src/a.c=sha(int x;)"].
Proof. vm_compute. repeat split. Qed.

(** A bundle within the ceiling reaches the store RPC, base64-encoded. *)
Lemma bundle_is_stored bundle :
  (MAX_UPLOAD_SIZE <? N.of_nat (String.length bundle))%N = false ->
  MassStoreRun "run" None "6.0" (Base64.b64encode bundle) false
    ∈ trace (bundle_run bundle).2.
Proof.
  intros Hsize. vm_compute in Hsize. vm_compute. rewrite Hsize.
  repeat constructor.
Qed.

Lemma full_bundle_size :
  N.of_nat (String.length full_bundle) = MAX_UPLOAD_SIZE.
Proof. unfold full_bundle. by rewrite replicate_length, N2Nat.id. Qed.

(** C4 as stated fails: a compressed bundle of exactly [MAX_UPLOAD_SIZE]
    bytes passes the size check, and the payload the store RPC gets, its
    base64 encoding, is a third longer than the ceiling. *)
Lemma encoded_payload_exceeds_ceiling :
  ~ payload_within_ceiling (trace (bundle_run full_bundle).2).
Proof.
  intros H.
  assert (Hsize : (MAX_UPLOAD_SIZE <? N.of_nat (String.length full_bundle))%N
                  = false).
  { rewrite full_bundle_size. apply N.ltb_irrefl. }
  apply bundle_is_stored, H in Hsize.
  rewrite b64encode_size, full_bundle_size in Hsize.
  vm_compute in Hsize. by apply Hsize.
Qed.

(** C7 as stated fails: [/src/a.c] and [/src/b.c] are both referenced
    and have the same bytes, but [/src/a.c] is referenced after a file
    that is gone, is never hashed and has no hash at all. *)
Lemma late_referenced_file_has_no_hash :
  ~ referenced_files_share_hash plain_env ["/r"] "/tmp/tmp0.zip"
      (staged late_disk).
Proof.
  intros H.
  specialize (H late_assembly.2 "/src/a.c" "/src/b.c").
  assert (H1 : assemble_zip plain_env ["/r"] "/tmp/tmp0.zip"
                 (staged late_disk) = (Return tt, late_assembly.2))
    by its_run.
  assert (H2 : "/src/a.c" ∈
                 referenced_paths plain_env (fs (staged late_disk)) ["/r"])
    by in_list.
  assert (H3 : "/src/b.c" ∈
                 referenced_paths plain_env (fs (staged late_disk)) ["/r"])
    by in_list.
  assert (H4 : "/src/a.c" <> "/src/b.c") by discriminate.
  destruct (H H1 H2 H3 H4) as (h & keys & Ha & _); try its_run.
  vm_compute in Ha. discriminate Ha.
Qed.

(** Neither metadata document of the unnamed directories has a name. *)
Lemma unnamed_inputs_declare_nothing :
  no_declared_name plain_env unnamed_disk ["/p"; "/q"].
Proof.
  intros p c metajson Hp Hdisk Hload.
  assert (c = "{}") as ->.
  { apply elem_of_cons in Hp as [->|Hp].
    - vm_compute in Hdisk. by injection Hdisk as <-.
    - apply list_elem_of_singleton in Hp as ->.
      vm_compute in Hdisk. by injection Hdisk as <-. }
  vm_compute in Hload. injection Hload as <-. vm_compute. reflexivity.
Qed.

(** C8 as stated fails: neither metadata document of this run declares a
    name, and [main] goes on under a composite label instead of exiting
    with status 2. *)
Lemma unnamed_documents_still_named :
  ~ missing_name_exits plain_env unnamed_args unnamed_disk.
Proof.
  intros H.
  specialize (H eq_refl unnamed_inputs_declare_nothing).
  vm_compute in H. discriminate H.
Qed.

(** C9 as stated fails: the sample metadata document, passed as an input
    path itself, is in no member of the archive. *)
Lemma metadata_input_not_bundled :
  ~ metadata_input_bundled plain_env ["/r/metadata.json"] "/tmp/tmp0.zip"
      (staged sample_disk).
Proof.
  intros H.
  assert (H1 : "/r/metadata.json" ∈ ["/r/metadata.json"]) by in_list.
  assert (H2 : Str.endswith (abspath plain_env "/r/metadata.json")
                 "/metadata.json" = true) by its_run.
  assert (H3 : fs (staged sample_disk) !! abspath plain_env "/r/metadata.json"
               = Some (File "proj")) by its_run.
  assert (H4 : assemble_zip plain_env ["/r/metadata.json"] "/tmp/tmp0.zip"
                 (staged sample_disk)
               = (Return tt, metadata_assembly.2)) by its_run.
  destruct (H _ _ _ H1 H2 H3 H4) as (e & Hin & Hdata).
  vm_compute in Hin. apply list_elem_of_singleton in Hin. subst e.
  discriminate Hdata.
Qed.

(** * Further properties of the handler *)

Section Further.

Variable E : Env.

Lemma OSError_is_Exception e : is_OSError e = true -> is_Exception e = true.
Proof. by destruct e. Qed.

Lemma stored_app (tr1 tr2 : list event) :
  stored (tr1 ++ tr2) = stored tr1 ++ stored tr2.
Proof.
  induction tr1 as [|ev tr1 IH]; [done|].
  destruct ev; simpl; by rewrite ?IH.
Qed.

Lemma stored_hashing (evs : list event) :
  Forall (fun ev => is_hashing ev = true) evs -> stored evs = [].
Proof.
  induction 1 as [|ev evs Hev _ IH]; [done|]. by destruct ev.
Qed.

Lemma queries_prelude (evs : list event) :
  Forall (fun ev => is_prelude ev = true) evs -> queries evs = [].
Proof.
  induction 1 as [|ev evs Hev _ IH]; [done|]. by destruct ev.
Qed.

Lemma stored_prelude (evs : list event) :
  Forall (fun ev => is_prelude ev = true) evs -> stored evs = [].
Proof.
  induction 1 as [|ev evs Hev _ IH]; [done|]. by destruct ev.
Qed.

(** A run of [main] that gets past the permission check, end to end:
    the assembly, what the size check and the store RPC make of its
    bundle, and the state the [finally] clause leaves. *)
Lemma main_shape args s r s' :
  main E args s = (r, s') ->
  (exists e (evs : list event),
     r = Raise e /\
     s' = State (fs s) (trace s ++ evs) (zipf s) (hash_to_file s)
            (file_to_hash s) /\
     Forall (fun ev => is_prelude ev = true) evs) \/
  (exists run pid ra sa,
     let zip_file := mkstemp E (fs s) in
     run_name E args s = (Return run, s) /\
     getCurrentProduct E = Return pid /\
     check_permission E pid = Return true /\
     assemble_zip E (input_list args) zip_file (entered E args pid s)
       = (ra, sa) /\
     fs s' = delete zip_file (fs s) /\
     zipf s' = zipf sa /\
     hash_to_file s' = hash_to_file sa /\
     file_to_hash s' = file_to_hash sa /\
     match ra with
     | Raise e =>
         r = exit_of (Raise e) /\ trace s' = trace sa ++ [Remove zip_file]
     | Return _ =>
         exists c,
           fs sa !! zip_file = Some (File c) /\
           if (MAX_UPLOAD_SIZE <? N.of_nat (String.length c))%N
           then r = Raise (SystemExit 1) /\
                trace s' = trace sa ++ [Remove zip_file]
           else
             let b64zip := Base64.b64encode c in
             r = exit_of (massStoreRun E run (tag args)
                            (context_version E) b64zip (force args)) /\
             trace s' =
               trace sa ++
               [MassStoreRun run (tag args) (context_version E) b64zip
                  (force args); Remove zip_file]
     end).
Proof.
  intros H. apply main_cases in H as [(e & evs & -> & -> & Hp & _)|H].
  { left. by exists e, evs. }
  right. destruct H as (run & pid & Hrun & Hpid & Hperm & H).
  simpl in H. fold (entered E args pid s) in H.
  eapply store_spec in H as (ru & su & Hu & -> & ->);
    [|simpl; apply lookup_insert_eq].
  pose proof Hu as Hfs.
  eapply upload_keeps_file in Hfs as (c' & Hfs);
    [|simpl; apply lookup_insert_eq].
  apply upload_spec in Hu as (ra & sa & Ha & Hu).
  exists run, pid, ra, sa. simpl.
  split; [done|]. split; [done|]. split; [done|]. split; [done|].
  split; [apply delete_insert_eq|].
  destruct ra as [[]|e].
  - destruct Hu as (c & Hl & Hu). repeat split; try done.
    + destruct (_ <? _)%N; by destruct Hu as [_ ->].
    + destruct (_ <? _)%N; by destruct Hu as [_ ->].
    + destruct (_ <? _)%N; by destruct Hu as [_ ->].
    + exists c. split; [done|].
      destruct (_ <? _)%N; destruct Hu as [-> ->]; [done|].
      simpl. split; [done|]. by rewrite <- app_assoc.
  - by destruct Hu as [-> ->].
Qed.

(** *** Which exceptions an assembly can end with *)

Lemma zipf_write_raises filename arc s e s' :
  zipf_write filename arc s = (Raise e, s') -> is_OSError e = true.
Proof.
  unfold zipf_write. destruct (fs s !! filename) as [[c|names]|]; try done.
  by intros [= <- _].
Qed.

Lemma read_file_raises p s e s' :
  read_file p s = (Raise e, s') -> is_OSError e = true.
Proof.
  unfold read_file. destruct (fs s !! p) as [[c|names]|]; try done;
    by intros [= <- _].
Qed.

Lemma write_file_raises p c s e s' :
  write_file p c s = (Raise e, s') -> is_OSError e = true.
Proof.
  unfold write_file, set_fs. destruct (fs s !! p) as [[c'|names]|]; try done.
  by intros [= <- _].
Qed.

Lemma add_file_raises ip f s e s' :
  add_file E ip f s = (Raise e, s') -> is_OSError e = true.
Proof.
  unfold add_file. destruct (Str.endswith f ".plist").
  - intros H. apply bind_inv in H as [(ok & s1 & Hc & H)|(e' & Hc & _)].
    + destruct ok; [by eapply zipf_write_raises|done].
    + by apply collect_spec in Hc as (_ & _ & ?).
  - destruct (String.eqb f "metadata.json"); [|done].
    apply zipf_write_raises.
Qed.

Lemma for_each_raises {A} (body : A -> M unit) (P : exc -> Prop) :
  (forall x s e s', body x s = (Raise e, s') -> P e) ->
  forall l s e s', for_each l body s = (Raise e, s') -> P e.
Proof.
  intros Hbody l. induction l as [|x l IH]; intros s e s' H; [done|].
  simpl in H. apply bind_inv in H as [(? & s1 & _ & H)|(e' & H & [= ->])].
  - by eapply IH.
  - by eapply Hbody.
Qed.

Lemma add_input_raises raw s e s' :
  add_input E raw s = (Raise e, s') -> is_OSError e = true.
Proof.
  unfold add_input, bind, get. simpl.
  destruct (negb _); [by intros [= <- _]|].
  apply (for_each_raises _ (fun e => is_OSError e = true)).
  apply add_file_raises.
Qed.

Lemma add_content_raises nh item s e s' :
  add_content nh item s = (Raise e, s') -> is_OSError e = true.
Proof.
  destruct item as [f h]. simpl. destruct (bool_decide _); [|done].
  apply zipf_write_raises.
Qed.

Lemma fill_zip_raises inputs s e s' :
  fill_zip E inputs s = (Raise e, s') ->
  is_OSError e = true \/
  exists keys, getMissingContentHashes E keys = Raise e.
Proof.
  unfold fill_zip. intros H.
  apply bind_inv in H as [([] & s1 & _ & H)|(e' & H & [= ->])].
  2:{ left. revert H.
      apply (for_each_raises _ (fun e => is_OSError e = true)).
      apply add_input_raises. }
  unfold bind, get, emit, lift in H. simpl in H.
  destruct (getMissingContentHashes E _) as [nh|e'] eqn:Hq.
  2:{ right. injection H as <- _. by eexists. }
  destruct (for_each _ _ _) as [[[]|e'] s2] eqn:Hc; [done|].
  injection H as <- _. left. revert Hc.
  apply (for_each_raises _ (fun e => is_OSError e = true)).
  apply add_content_raises.
Qed.

Lemma assemble_zip_raises inputs zip s e s' :
  assemble_zip E inputs zip s = (Raise e, s') ->
  is_OSError e = true \/
  exists keys, getMissingContentHashes E keys = Raise e.
Proof.
  unfold assemble_zip. intros H.
  apply bind_inv in H as [([] & s0 & _ & H)|(? & [=] & _)].
  apply bind_inv in H as [([] & s1 & _ & H)|(e' & H & [= ->])].
  - apply bind_inv in H as [(src & s2 & _ & H)|(e' & H & [= ->])].
    + left. by eapply write_file_raises.
    + left. by eapply read_file_raises.
  - unfold try_finally in H.
    destruct (fill_zip E inputs s0) as [rf sf] eqn:Hf.
    destruct (zipf_close E zip sf) as [[[]|ec] sc] eqn:Hc.
    + injection H as -> _. by eapply fill_zip_raises.
    + injection H as -> _. left.
      unfold zipf_close, bind, get in Hc. simpl in Hc.
      by eapply write_file_raises.
Qed.

(** *** Runs of [main], end to end *)

Lemma assembly_trace inputs zip s r s' :
  assemble_zip E inputs zip s = (r, s') ->
  exists (evs q : list event),
    trace s' = trace s ++ evs ++ q /\
    Forall (fun ev => is_hashing ev = true) evs /\
    (q = [] \/ exists keys, q = [GetMissingContentHashes keys]) /\
    (r = Return tt -> exists keys, q = [GetMissingContentHashes keys]).
Proof.
  intros H. apply assemble_zip_spec in H as (_ & evs & q & H).
  destruct H as (Ht & Hq & Hall & _ & _ & _ & Hret).
  exists evs, q. split; [done|]. split; [done|]. split.
  - destruct Hq as [-> | ->]; [by left|right; by eexists].
  - intros Hr. destruct (Hret Hr) as (-> & _). by eexists.
Qed.

(** The store RPC of a run, traced back: it is made with the derived
    run name and the arguments of the command line, on the encoding of
    the bundle a completed assembly left within the ceiling. *)
Lemma store_call_inv args disk run tg ver p f :
  MassStoreRun run tg ver p f ∈ trace (main E args (init_state disk)).2 ->
  exists pid sa c,
    run_name E args (init_state disk) = (Return run, init_state disk) /\
    assemble_zip E (input_list args) (mkstemp E disk)
      (entered E args pid (init_state disk)) = (Return tt, sa) /\
    fs sa !! mkstemp E disk = Some (File c) /\
    (N.of_nat (String.length c) <= MAX_UPLOAD_SIZE)%N /\
    tg = tag args /\ ver = context_version E /\ f = force args /\
    p = Base64.b64encode c.
Proof.
  destruct (main E args (init_state disk)) as [r s'] eqn:H. simpl.
  intros Hin.
  apply main_shape in H as [(e & evs & _ & -> & Hp)|H].
  { simpl in Hin. rewrite Forall_forall in Hp. by apply Hp in Hin. }
  destruct H as (run' & pid & ra & sa & Hrun & _ & _ & Ha & _ & _ & _ & _ & H).
  simpl in Ha, H.
  pose proof (assembly_trace _ _ _ _ _ Ha) as (evs & q & Ht & Hall & Hq & _).
  assert (Hno : MassStoreRun run tg ver p f ∉ trace sa).
  { rewrite Ht. simpl. intros Hn.
    repeat (apply elem_of_cons in Hn as [Hn|Hn]; [done|]).
    apply elem_of_app in Hn as [Hn|Hn].
    - rewrite Forall_forall in Hall. by apply Hall in Hn.
    - destruct Hq as [->|[keys ->]]; [by apply elem_of_nil in Hn|].
      by apply list_elem_of_singleton in Hn. }
  assert (Hrm : MassStoreRun run tg ver p f ∉ [Remove (mkstemp E disk)]).
  { intros Hn. by apply list_elem_of_singleton in Hn. }
  destruct ra as [[]|e].
  - destruct H as (c & Hl & H). exists pid, sa, c.
    destruct (_ <? _)%N eqn:Hsz.
    + destruct H as [_ H]. rewrite H in Hin.
      apply elem_of_app in Hin as [Hin|Hin]; done.
    + destruct H as [_ H]. rewrite H in Hin.
      apply elem_of_app in Hin as [Hin|Hin]; [done|].
      apply elem_of_cons in Hin as [Hin|Hin]; [|done].
      injection Hin as -> -> -> -> ->.
      apply N.ltb_ge in Hsz. by repeat split.
  - destruct H as [_ H]. rewrite H in Hin.
    apply elem_of_app in Hin as [Hin|Hin]; done.
Qed.

(** X2.  A run of [main] that ends normally made, of the calls the
    trace records, exactly this sequence: product and permission,
    client set-up, the temporary file, parsing and hashing (of exactly
    the hashed paths of the inputs), one reconciliation query with the
    keys of the hash-to-path dictionary, one store RPC with the run
    name [main] settled on and the base64 encoding of the compressed
    archive, which returned normally, and the removal of the temporary
    file.  The constructors of the product and authentication clients
    are not among the recorded calls. *)
Theorem successful_run_trace args disk s' :
  main E args (init_state disk) = (Return tt, s') ->
  exists run pid (evs : list event),
    let z := mkstemp E disk in
    let keys := (map_to_list (hash_to_file s')).*1 in
    let bundle := zlib_compress E (zip_bytes E (zipf s')) in
    let b64zip := Base64.b64encode bundle in
    run_name E args (init_state disk) = (Return run, init_state disk) /\
    trace s' =
      [GetCurrentProduct; CheckPermission pid;
       SetupClient (product_url args); Mkstemp z] ++ evs ++
      [GetMissingContentHashes keys;
       MassStoreRun run (tag args) (context_version E) b64zip (force args);
       Remove z] /\
    Forall (fun ev => is_hashing ev = true) evs /\
    hashed evs =
      hashed_paths E (<[z := File ""]> disk) (input_list args) /\
    getCurrentProduct E = Return pid /\
    check_permission E pid = Return true /\
    massStoreRun E run (tag args) (context_version E) b64zip (force args)
      = Return tt.
Proof.
  intros H. apply main_shape in H as [(e & evs & [=] & _)|H].
  destruct H as (run & pid & ra & sa & Hrun & Hpid & Hperm & Ha & H).
  destruct H as (_ & Hz & Hh & _ & H).
  simpl in Ha, H.
  destruct ra as [[]|e].
  2:{ destruct H as [H _]. simpl in H. by destruct (is_Exception e). }
  apply assemble_zip_spec in Ha as (_ & evs & q & Ha).
  destruct Ha as (Ht & _ & Hall & _ & _ & _ & Hret).
  destruct (Hret eq_refl) as (-> & Hpaths & nh & _ & _ & Hfs).
  destruct H as (c & Hl & H).
  rewrite Hfs, lookup_insert_eq in Hl. injection Hl as <-.
  destruct (_ <? _)%N; [by destruct H|]. destruct H as [Hr H].
  exists run, pid, evs. simpl. rewrite Hz, Hh.
  split; [done|].
  split; [by rewrite H, Ht; simpl; rewrite <- !app_assoc|].
  split; [done|]. split; [done|]. split; [done|]. split; [done|].
  destruct (massStoreRun E _ _ _ _ _) as [[]|e]; [done|].
  simpl in Hr. by destruct (is_Exception e).
Qed.

(** X3.  Nothing is retried: whatever the outcome, a run of [main] makes
    at most one reconciliation query and at most one store RPC, and the
    store RPC comes right after the query: a trace with a store call
    ends with the query, the store call and the removal of the temporary
    file, and holds no query and no store call before them. *)
Theorem single_shot args disk :
  let tr := trace (main E args (init_state disk)).2 in
  length (queries tr) <= 1 /\ length (stored tr) <= 1 /\
  (stored tr <> [] ->
   exists (before : list event) keys run b64zip,
     tr =
       before ++
       [GetMissingContentHashes keys;
        MassStoreRun run (tag args) (context_version E) b64zip
          (force args);
        Remove (mkstemp E disk)] /\
     queries before = [] /\ stored before = []).
Proof.
  destruct (main E args (init_state disk)) as [r s'] eqn:H. simpl.
  apply main_shape in H as [(e & evs & _ & -> & Hp)|H].
  { simpl. rewrite queries_prelude, stored_prelude by done. simpl.
    split; [lia|]. split; [lia|done]. }
  destruct H as (run & pid & ra & sa & _ & _ & _ & Ha & _ & _ & _ & _ & H).
  simpl in Ha, H.
  pose proof (assembly_trace _ _ _ _ _ Ha) as (evs & q & Ht & Hall & Hq & Hr).
  simpl in Ht.
  assert (Hqa : queries (trace sa) = queries q).
  { rewrite Ht. simpl. by rewrite queries_app, queries_hashing. }
  assert (Hsa : stored (trace sa) = []).
  { rewrite Ht. simpl. rewrite stored_app, stored_hashing by done.
    by destruct Hq as [->|[keys ->]]. }
  assert (Hq1 : length (queries q) <= 1).
  { destruct Hq as [->|[keys ->]]; simpl; lia. }
  assert (Hcases :
    trace s' = trace sa ++ [Remove (mkstemp E disk)] \/
    exists b64zip keys,
      q = [GetMissingContentHashes keys] /\
      trace s' =
        trace sa ++
        [MassStoreRun run (tag args) (context_version E) b64zip
           (force args); Remove (mkstemp E disk)]).
  { destruct ra as [[]|e]; [|left; by destruct H].
    destruct H as (c & _ & H).
    destruct (_ <? _)%N; [left; by destruct H|].
    right. destruct (Hr eq_refl) as [keys ->].
    exists (Base64.b64encode c), keys. by destruct H. }
  destruct Hcases as [Hs' | (b64zip & keys & -> & Hs')];
    rewrite Hs', queries_app, stored_app, Hqa, Hsa; simpl;
    rewrite ?app_nil_r.
  - split; [done|]. split; [lia|done].
  - split; [lia|]. split; [lia|]. intros _.
    exists ([GetCurrentProduct; CheckPermission pid;
             SetupClient (product_url args); Mkstemp (mkstemp E disk)]
            ++ evs), keys, run, b64zip.
    split; [rewrite Ht; simpl; by rewrite <- !app_assoc|].
    simpl. by rewrite queries_hashing, stored_hashing.
Qed.

(** X4.  Exit statuses once the temporary file exists: provided the two
    RPCs fail with ordinary exceptions only, [main] ends normally or
    with exit status 1, and nothing else; an [OSError] of the assembly
    and a failure of either RPC all come out as exit status 1. *)
Theorem exit_status_after_mkstemp args disk r s' z :
  (forall keys e,
     getMissingContentHashes E keys = Raise e -> is_Exception e = true) ->
  (forall run tg ver p f e,
     massStoreRun E run tg ver p f = Raise e -> is_Exception e = true) ->
  main E args (init_state disk) = (r, s') ->
  Mkstemp z ∈ trace s' ->
  r = Return tt \/ r = Raise (SystemExit 1).
Proof.
  intros Hquery Hstore H Hin.
  apply main_shape in H as [(e & evs & _ & -> & Hp)|H].
  { simpl in Hin. rewrite Forall_forall in Hp. by apply Hp in Hin. }
  destruct H as (run & pid & ra & sa & _ & _ & _ & Ha & _ & _ & _ & _ & H).
  simpl in Ha, H. destruct ra as [[]|e].
  - destruct H as (c & _ & H).
    destruct (_ <? _)%N; [right; by destruct H|].
    destruct H as [-> _].
    destruct (massStoreRun E _ _ _ _ _) as [[]|e] eqn:Hs; [by left|].
    right. simpl. by rewrite (Hstore _ _ _ _ _ _ Hs).
  - destruct H as [-> _]. right. simpl.
    apply assemble_zip_raises in Ha as [Ha|[keys Ha]].
    + by rewrite (OSError_is_Exception _ Ha).
    + by rewrite (Hquery _ _ Ha).
Qed.

(** X5.  The store RPC gets the run name [main] settled on (the one
    given with [--name], when there is one), the tag and the force flag
    of the command line, and the version of the package context. *)
Theorem store_call_arguments args disk run tg ver p f :
  MassStoreRun run tg ver p f ∈ trace (main E args (init_state disk)).2 ->
  (run_name E args (init_state disk)).1 = Return run /\
  tg = tag args /\ ver = context_version E /\ f = force args /\
  (forall n, name args = Some n -> run = n).
Proof.
  intros H. apply store_call_inv in H as (pid & sa & c & Hrun & H).
  destruct H as (_ & _ & _ & -> & -> & -> & _).
  split; [by rewrite Hrun|]. repeat split.
  intros n Hn. rewrite run_name_spec, Hn in Hrun. by injection Hrun.
Qed.

(** X6.  The payload of the store RPC is padded base64: its length is a
    multiple of four and at most 1431655768 bytes, four thirds of the
    ceiling on the bundle. *)
Theorem payload_size_bound args disk run tg ver p f :
  MassStoreRun run tg ver p f ∈ trace (main E args (init_state disk)).2 ->
  (N.of_nat (String.length p) <= 1431655768)%N /\
  String.length p mod 4 = 0.
Proof.
  intros H. apply store_call_inv in H as (pid & sa & c & _ & H).
  destruct H as (_ & _ & Hsz & _ & _ & _ & ->). split.
  - rewrite b64encode_size.
    change 1431655768%N with (4 * ((MAX_UPLOAD_SIZE + 2) / 3))%N.
    apply N.mul_le_mono_l, N.Div0.div_le_mono. lia.
  - rewrite b64encode_length, Nat.mul_comm. apply Nat.Div0.mod_mul.
Qed.

(** X7.  With a fresh temporary file name, [main] leaves the disk as it
    found it, however it ends: the inputs are only read, and the one
    file [main] creates is removed again. *)
Theorem main_preserves_disk args disk r s' :
  disk !! mkstemp E disk = None ->
  main E args (init_state disk) = (r, s') ->
  fs s' = disk.
Proof.
  intros Hfresh H.
  apply main_shape in H as [(e & evs & _ & -> & _)|H]; [done|].
  destruct H as (run & pid & ra & sa & _ & _ & _ & _ & -> & _).
  simpl. by apply delete_id.
Qed.

End Further.

Section Assembly.

Variable E : Env.

(** *** Inputs that are not there *)




(** *** Reports *)

(** X9.  [collect_file_hashes_from_plist] never raises: whatever the
    report and the parser do, it returns whether the report survives,
    having hashed the files the report references up to the first one
    that is not a regular file, and leaves disk and archive alone. *)
Theorem collect_returns_survival plist_file s :
  exists s',
    collect_file_hashes_from_plist E plist_file s
      = (Return (survives E (fs s) plist_file), s') /\
    hashed (since s s') = plist_hashed E (fs s) plist_file /\
    fs s' = fs s /\ zipf s' = zipf s.
Proof.
  destruct (collect_file_hashes_from_plist E plist_file s) as [r s'] eqn:H.
  exists s'. pose proof (collect_hashed _ _ _ _ _ H) as Hh.
  apply collect_spec in H as ([Hfs _] & Hz & ->). by repeat split.
Qed.

(** X10.  A report that cannot be read or parsed is skipped without
    failing: all [add_file] leaves behind is the call of the parser. *)
Theorem unparsable_report_is_skipped input_path f s :
  Str.endswith f ".plist" = true ->
  (forall c, fs s !! Path.join input_path f = Some (File c) ->
             parse_plist E c = None) ->
  add_file E input_path f s =
    (Return tt, with_event s (ParsePlist (Path.join input_path f))).
Proof.
  intros Hf Hbad. unfold add_file. rewrite Hf.
  unfold collect_file_hashes_from_plist, try_except, parse_plist_file.
  unfold bind, emit, read_file, with_event. simpl.
  destruct (fs s !! Path.join input_path f) as [[c|names]|] eqn:Hl;
    simpl; try done.
  by rewrite (Hbad c).
Qed.

(** *** Member names *)

Lemma lstrip_other c f :
  c <> "/"%char -> Str.lstrip_slash (String c f) = String c f.
Proof.
  intros Hc. by destruct c as [[] [] [] [] [] [] [] []].
Qed.

Lemma lstrip_no_slash f : Str.startswith (Str.lstrip_slash f) "/" = false.
Proof.
  induction f as [|c f IH]; [done|].
  destruct (ascii_dec c "/") as [->|Hc]; [exact IH|].
  rewrite lstrip_other by done.
  unfold Str.startswith. cbn [String.prefix].
  destruct (ascii_dec "/" c) as [<-|_]; done.
Qed.

Lemma join_relative dir x :
  Str.startswith x "/" = false ->
  dir = "reports" \/ dir = "root" ->
  Path.join dir x = dir +:+ "/" +:+ x.
Proof.
  unfold Path.join. intros -> [-> | ->]; by vm_compute.
Qed.

Lemma join_absolute a b : Str.startswith b "/" = true -> Path.join a b = b.
Proof. unfold Path.join. by intros ->. Qed.

(** X11.  The two dictionaries of an assembly agree with each other,
    however it ends: the representative of a hash is a hashed regular
    file with that very hash in the path-to-hash dictionary, and the
    hash of every path there has a representative. *)
Theorem dictionaries_consistent inputs zip s r s' :
  assemble_zip E inputs zip s = (r, s') ->
  (forall h f,
     hash_to_file s' !! h = Some f ->
     file_to_hash s' !! f = Some h /\ isfile (fs s) f = true /\
     h = digest E (fs s) f) /\
  (forall f h,
     file_to_hash s' !! f = Some h ->
     is_Some (hash_to_file s' !! h) /\ f ∈ hashed (since s s') /\
     h = digest E (fs s) f).
Proof.
  intros H. apply assemble_zip_spec in H as (_ & evs & q & H).
  destruct H as (Ht & Hq & _ & Hfile & -> & -> & _).
  assert (Hs : hashed (since s s') = hashed evs).
  { rewrite (since_app _ _ _ Ht). by eapply hashed_query. }
  rewrite Hs. rewrite Forall_forall in Hfile. split.
  - intros h f Hl. apply record_h2f_inv in Hl as [Hin ->].
    split; [by apply record_f2h_lookup|]. split; [by apply Hfile|done].
  - intros f h Hl. apply record_f2h_inv in Hl as [Hin ->].
    split; [by apply record_h2f_is_Some|done].
Qed.

(** X12.  In a completed archive, the members between the report and
    metadata members and the manifest are exactly the hashed paths
    whose hash is in the list the remote returned to the query, each
    written with the file's bytes and with [root/] followed by the path
    without its leading slashes as the [arcname] argument. *)
Theorem content_members inputs zip s s' :
  assemble_zip E inputs zip s = (Return tt, s') ->
  exists nh contents,
    getMissingContentHashes E (map_to_list (hash_to_file s')).*1
      = Return nh /\
    zipf s' =
      report_entries E (fs s) inputs ++ contents ++
      [manifest E (file_to_hash s')] /\
    forall e,
      e ∈ contents <->
      exists f,
        f ∈ hashed_paths E (fs s) inputs /\
        sha256_hexdigest E (content (fs s) f) ∈ nh /\
        e = ZipEntry ("root/" +:+ Str.lstrip_slash f) (content (fs s) f).
Proof.
  intros H. apply assemble_zip_spec in H as (_ & evs & q & H).
  destruct H as (_ & _ & _ & Hfile & _ & Hf2h & Hret).
  destruct (Hret eq_refl) as (_ & Hh & nh & Hnh & Hz & _).
  rewrite Hh in *. clear Hret.
  exists nh, (content_entries (fs s) nh (file_to_hash s')).
  split; [done|]. split; [done|]. intros e. rewrite Hf2h.
  rewrite Forall_forall in Hfile.
  assert (Hmember : forall f,
            f ∈ hashed_paths E (fs s) inputs ->
            member (fs s) f (Path.join "root" (Str.lstrip_slash f)) =
            [ZipEntry ("root/" +:+ Str.lstrip_slash f) (content (fs s) f)]).
  { intros f Hf. apply Hfile in Hf. unfold isfile in Hf.
    unfold member, content.
    rewrite (join_relative "root") by (auto using lstrip_no_slash).
    by destruct (fs s !! f) as [[c|names]|]. }
  unfold content_entries. rewrite list_elem_of_In, in_flat_map. split.
  - intros ([f h] & Hitem & He).
    apply list_elem_of_In, elem_of_map_to_list, record_f2h_inv in Hitem
      as [Hf ->].
    unfold content_entry in He. simpl in He.
    destruct (bool_decide _) eqn:Hin; [|done].
    apply bool_decide_eq_true in Hin.
    rewrite (Hmember f Hf) in He. destruct He as [<-|[]]. by exists f.
  - intros (f & Hf & Hin & ->). exists (f, digest E (fs s) f). split.
    + apply list_elem_of_In, elem_of_map_to_list. by apply record_f2h_lookup.
    + unfold content_entry. simpl. rewrite bool_decide_eq_true_2 by done.
      rewrite (Hmember f Hf). by left.
Qed.

(** X13.  A report passed as an input path itself is handed, when it
    survives, to [zipf.write] with its own absolute path as the
    [arcname] argument, not with a name under [reports/]:
    [os.path.join] drops both the input path and the [reports]
    directory in front of an absolute name. *)
Theorem report_file_input_arcname inputs zip s s' raw c :
  assemble_zip E inputs zip s = (Return tt, s') ->
  raw ∈ inputs ->
  fs s !! abspath E raw = Some (File c) ->
  Str.startswith (abspath E raw) "/" = true ->
  Str.endswith (abspath E raw) ".plist" = true ->
  survives E (fs s) (abspath E raw) = true ->
  Path.join (abspath E raw) (abspath E raw) = abspath E raw /\
  Path.join "reports" (abspath E raw) = abspath E raw /\
  Str.startswith (abspath E raw) "reports/" = false /\
  input_entries E (fs s) raw = [ZipEntry (abspath E raw) c] /\
  ZipEntry (abspath E raw) c ∈ zipf s'.
Proof.
  intros H Hin Hl Habs Hplist Hsurv.
  assert (Hentries :
    input_entries E (fs s) raw = [ZipEntry (abspath E raw) c]).
  { unfold input_entries, listed, isfile. rewrite Hl. simpl.
    unfold file_entries. rewrite Hplist, !join_absolute by done.
    rewrite Hsurv. unfold member. by rewrite Hl. }
  split; [by apply join_absolute|]. split; [by apply join_absolute|].
  split.
  { apply startswith_slash in Habs as [x ->]. by vm_compute. }
  split; [done|].
  apply assemble_zip_spec in H as (_ & evs & q & H).
  destruct H as (_ & _ & _ & _ & _ & _ & Hret).
  destruct (Hret eq_refl) as (_ & _ & nh & _ & -> & _).
  apply elem_of_app. left. unfold report_entries.
  apply list_elem_of_In, in_flat_map. exists raw.
  split; [by apply list_elem_of_In|]. rewrite Hentries. by left.
Qed.

(** X14.  An assembly that hashes nothing still queries the remote, with
    the empty list, and its archive is the report and metadata members
    followed by the manifest of the empty dictionary. *)
Theorem nothing_to_reconcile inputs zip s s' :
  assemble_zip E inputs zip s = (Return tt, s') ->
  hashed_paths E (fs s) inputs = [] ->
  queries (since s s') = [[]] /\
  hash_to_file s' = ∅ /\ file_to_hash s' = ∅ /\
  zipf s' = report_entries E (fs s) inputs ++ [manifest E ∅].
Proof.
  intros H Hnone. apply assemble_zip_spec in H as (_ & evs & q & H).
  destruct H as (Ht & _ & Hall & _ & Hh2f & Hf2h & Hret).
  destruct (Hret eq_refl) as (-> & Hh & nh & _ & Hz & _).
  rewrite Hh, Hnone in Hh2f, Hf2h. simpl in Hh2f, Hf2h.
  rewrite Hz, Hf2h. rewrite (since_app _ _ _ Ht).
  rewrite queries_app, queries_hashing by done. simpl.
  rewrite Hh2f, map_to_list_empty. by repeat split.
Qed.

(** *** Run names *)

Lemma no_directory_no_names inputs disk :
  Forall (fun p => isdir disk p = false) inputs ->
  metadata_names E disk inputs = Return [].
Proof.
  induction 1 as [|p inputs Hp _ IH]; [done|].
  simpl. by rewrite Hp.
Qed.

Lemma main_without_name args s :
  check_zlib E = true -> name args = None ->
  main E args s =
    match metadata_names E (fs s) (input_list args) with
    | Return names =>
        match derived_name names with
        | Some run =>
            main E
              {| input := input args; name := Some run; tag := tag args;
                 force := force args; product_url := product_url args |} s
        | None => (Raise (SystemExit 2), s)
        end
    | Raise e => (Raise e, s)
    end.
Proof.
  intros Hz Hname. unfold main, bind. rewrite Hz. simpl.
  rewrite !run_name_spec, Hname. simpl.
  destruct (metadata_names E (fs s) (input_list args)) as [names|e];
    [|done].
  by destruct (derived_name names) as [run|].
Qed.

(** X15.  Only directories are searched for a run name: when no input
    path is a directory, a run without [--name] ends with exit status
    2 before anything else happens. *)
Theorem file_inputs_give_no_name args s :
  check_zlib E = true -> name args = None ->
  Forall (fun p => isdir (fs s) p = false) (input_list args) ->
  main E args s = (Raise (SystemExit 2), s).
Proof.
  intros Hz Hname Hfiles.
  by rewrite main_without_name, no_directory_no_names.
Qed.

(** X16.  A metadata document that cannot be read or decoded is fatal
    when the run name has to be derived: the exception leaves [main] as
    it is, outside the [try] statement, before any call is made. *)
Theorem metadata_error_escapes args s e :
  check_zlib E = true -> name args = None ->
  metadata_names E (fs s) (input_list args) = Raise e ->
  main E args s = (Raise e, s).
Proof.
  intros Hz Hname Hmeta. by rewrite main_without_name, Hmeta.
Qed.

(** X17.  Deriving the run name is the same as passing it: a run without
    [--name] whose metadata give the name [run] is the run with
    [--name run]. *)
Theorem derived_name_as_given args s names run :
  check_zlib E = true -> name args = None ->
  metadata_names E (fs s) (input_list args) = Return names ->
  derived_name names = Some run ->
  main E args s =
  main E
    {| input := input args; name := Some run; tag := tag args;
       force := force args; product_url := product_url args |} s.
Proof.
  intros Hz Hname Hmeta Hrun.
  by rewrite main_without_name, Hmeta, Hrun.
Qed.

End Assembly.

(** * The further properties on sample runs *)

Lemma successful_run_trace_witness :
  exists run pid (evs : list event),
    let z := mkstemp plain_env sample_disk in
    let keys := (map_to_list (hash_to_file sample_run.2)).*1 in
    let bundle :=
      zlib_compress plain_env (zip_bytes plain_env (zipf sample_run.2)) in
    let b64zip := Base64.b64encode bundle in
    run_name plain_env (sample_args ["/r"] None) (init_state sample_disk)
      = (Return run, init_state sample_disk) /\
    trace sample_run.2 =
      [GetCurrentProduct; CheckPermission pid;
       SetupClient (product_url (sample_args ["/r"] None)); Mkstemp z] ++
      evs ++
      [GetMissingContentHashes keys;
       MassStoreRun run (tag (sample_args ["/r"] None))
         (context_version plain_env) b64zip
         (force (sample_args ["/r"] None));
       Remove z] /\
    Forall (fun ev => is_hashing ev = true) evs /\
    hashed evs =
      hashed_paths plain_env (<[z := File ""]> sample_disk)
        (input_list (sample_args ["/r"] None)) /\
    getCurrentProduct plain_env = Return pid /\
    check_permission plain_env pid = Return true /\
    massStoreRun plain_env run (tag (sample_args ["/r"] None))
      (context_version plain_env) b64zip (force (sample_args ["/r"] None))
      = Return tt.
Proof.
  apply (successful_run_trace plain_env (sample_args ["/r"] None)
           sample_disk sample_run.2).
  its_run.
Defined.

Lemma exit_status_witness :
  sample_run.1 = Return tt \/ sample_run.1 = Raise (SystemExit 1).
Proof.
  apply (exit_status_after_mkstemp plain_env (sample_args ["/r"] None)
           sample_disk sample_run.1 sample_run.2 "/tmp/tmp0.zip").
  - intros keys e H. vm_compute in H. discriminate H.
  - intros run tg ver p f e H. vm_compute in H. discriminate H.
  - its_run.
  - in_list.
Defined.


Lemma unparsable_report_witness :
  add_file plain_env "/r" "C.plist" (staged broken_disk) =
  (Return tt, with_event (staged broken_disk) (ParsePlist "/r/C.plist")).
Proof.
  apply (unparsable_report_is_skipped plain_env "/r" "C.plist"
           (staged broken_disk)).
  - vm_compute. reflexivity.
  - intros c H. vm_compute in H. injection H as <-. vm_compute. reflexivity.
Defined.

Lemma dictionaries_consistent_witness :
  file_to_hash sample_assembly.2 !! "/src/b.c" = Some "sha(int x;)".
Proof.
  destruct (dictionaries_consistent plain_env ["/r"] "/tmp/tmp0.zip"
              (staged sample_disk) sample_assembly.1 sample_assembly.2)
    as [Hrep _]; [its_run|].
  apply Hrep. vm_compute. reflexivity.
Defined.

Lemma content_members_witness :
  exists nh contents,
    getMissingContentHashes plain_env
      (map_to_list (hash_to_file sample_assembly.2)).*1 = Return nh /\
    zipf sample_assembly.2 =
      report_entries plain_env (fs (staged sample_disk)) ["/r"] ++
      contents ++ [manifest plain_env (file_to_hash sample_assembly.2)] /\
    forall e,
      e ∈ contents <->
      exists f,
        f ∈ hashed_paths plain_env (fs (staged sample_disk)) ["/r"] /\
        sha256_hexdigest plain_env (content (fs (staged sample_disk)) f)
          ∈ nh /\
        e = ZipEntry ("root/" +:+ Str.lstrip_slash f)
              (content (fs (staged sample_disk)) f).
Proof.
  apply (content_members plain_env ["/r"] "/tmp/tmp0.zip"
           (staged sample_disk) sample_assembly.2).
  its_run.
Defined.

Lemma report_file_input_witness :
  Path.join (abspath plain_env "/r/A.plist") (abspath plain_env "/r/A.plist")
    = abspath plain_env "/r/A.plist" /\
  Path.join "reports" (abspath plain_env "/r/A.plist")
    = abspath plain_env "/r/A.plist" /\
  Str.startswith (abspath plain_env "/r/A.plist") "reports/" = false /\
  input_entries plain_env (fs (staged sample_disk)) "/r/A.plist" =
    [ZipEntry (abspath plain_env "/r/A.plist")
       ("/src/a.c" +:+ newline +:+ "/src/b.c")] /\
  ZipEntry (abspath plain_env "/r/A.plist")
    ("/src/a.c" +:+ newline +:+ "/src/b.c") ∈ zipf report_assembly.2.
Proof.
  apply (report_file_input_arcname plain_env ["/r/A.plist"] "/tmp/tmp0.zip"
           (staged sample_disk)).
  - its_run.
  - in_list.
  - vm_compute. reflexivity.
  - vm_compute. reflexivity.
  - vm_compute. reflexivity.
  - vm_compute. reflexivity.
Defined.

Lemma nothing_to_reconcile_witness :
  queries (since (staged sample_disk) metadata_assembly.2) = [[]] /\
  hash_to_file metadata_assembly.2 = ∅ /\
  file_to_hash metadata_assembly.2 = ∅ /\
  zipf metadata_assembly.2 =
    report_entries plain_env (fs (staged sample_disk)) ["/r/metadata.json"]
    ++ [manifest plain_env ∅].
Proof.
  apply (nothing_to_reconcile plain_env ["/r/metadata.json"] "/tmp/tmp0.zip"
           (staged sample_disk)).
  - its_run.
  - vm_compute. reflexivity.
Defined.

Lemma file_inputs_give_no_name_witness :
  main plain_env (sample_args ["/r/A.plist"] None) (init_state sample_disk) =
  (Raise (SystemExit 2), init_state sample_disk).
Proof.
  apply (file_inputs_give_no_name plain_env).
  - reflexivity.
  - reflexivity.
  - in_list.
Defined.

Lemma metadata_error_witness :
  main strict_env (sample_args ["/r"] None) (init_state sample_disk) =
  (Raise (Error "No JSON object could be decoded"), init_state sample_disk).
Proof.
  apply (metadata_error_escapes strict_env).
  - reflexivity.
  - reflexivity.
  - vm_compute. reflexivity.
Defined.

Lemma derived_name_as_given_witness :
  main plain_env (sample_args ["/r"] None) (init_state sample_disk) =
  main plain_env
    {| input := input (sample_args ["/r"] None); name := Some "proj";
       tag := tag (sample_args ["/r"] None);
       force := force (sample_args ["/r"] None);
       product_url := product_url (sample_args ["/r"] None) |}
    (init_state sample_disk).
Proof.
  apply (derived_name_as_given plain_env (sample_args ["/r"] None)
           (init_state sample_disk) ["proj"] "proj").
  - reflexivity.
  - reflexivity.
  - vm_compute. reflexivity.
  - vm_compute. reflexivity.
Defined.

Lemma store_call_arguments_witness :
  (run_name plain_env (sample_args ["/r"] None) (init_state sample_disk)).1
    = Return "proj" /\
  None = tag (sample_args ["/r"] None) /\
  "6.0" = context_version plain_env /\
  false = force (sample_args ["/r"] None) /\
  (forall n, name (sample_args ["/r"] None) = Some n -> "proj" = n).
Proof.
  apply (store_call_arguments plain_env (sample_args ["/r"] None) sample_disk
           "proj" None "6.0" sample_payload false).
  in_list.
Defined.

Lemma payload_size_witness :
  (N.of_nat (String.length sample_payload) <= 1431655768)%N /\
  String.length sample_payload mod 4 = 0.
Proof.
  apply (payload_size_bound plain_env (sample_args ["/r"] None) sample_disk
           "proj" None "6.0" sample_payload false).
  in_list.
Defined.

Lemma main_preserves_disk_witness : fs sample_run.2 = sample_disk.
Proof.
  apply (main_preserves_disk plain_env (sample_args ["/r"] None) sample_disk
           sample_run.1).
  - vm_compute. reflexivity.
  - its_run.
Defined.

(** * Base64 loses nothing *)

Lemma digit_value_digit n :
  (n < 64)%N -> digit_value (Base64.digit n) = Some n.
Proof.
  intros Hn. rewrite <- (N2Nat.id n).
  assert (Hk : N.to_nat n < 64) by lia.
  revert Hk. generalize (N.to_nat n). clear n Hn. intros k Hk.
  do 64 (destruct k as [|k]; [by vm_compute|]). lia.
Qed.

Lemma digit_value_pad : digit_value Base64.pad = None.
Proof. by vm_compute. Qed.

Lemma byte_bound a : (N_of_ascii a < 256)%N.
Proof. apply N_ascii_bounded. Qed.

Lemma b64encode_3 a b c rest :
  Base64.b64encode (String a (String b (String c rest))) =
  String (Base64.digit (N_of_ascii a / 4))
    (String (Base64.digit ((N_of_ascii a mod 4) * 16 + N_of_ascii b / 16))
       (String (Base64.digit ((N_of_ascii b mod 16) * 4 + N_of_ascii c / 64))
          (String (Base64.digit (N_of_ascii c mod 64))
             (Base64.b64encode rest)))).
Proof. reflexivity. Qed.

Lemma b64decode_4 a b c d rest :
  b64decode (String a (String b (String c (String d rest)))) =
  match digit_value a, digit_value b with
  | Some v1, Some v2 =>
      let x := ascii_of_N (v1 * 4 + v2 / 16) in
      match digit_value c with
      | Some v3 =>
          let y := ascii_of_N ((v2 mod 16) * 16 + v3 / 4) in
          match digit_value d with
          | Some v4 =>
              let z := ascii_of_N ((v3 mod 4) * 64 + v4) in
              (fun r => String x (String y (String z r))) <$>
                b64decode rest
          | None =>
              if Ascii.eqb d Base64.pad && String.eqb rest ""
              then Some (String x (String y "")) else None
          end
      | None =>
          if Ascii.eqb c Base64.pad && Ascii.eqb d Base64.pad &&
             String.eqb rest ""
          then Some (String x "") else None
      end
  | _, _ => None
  end.
Proof. reflexivity. Qed.

Ltac byte_arith :=
  repeat match goal with
         | |- context [N_of_ascii ?a] =>
             let x := fresh "x" in
             let Hx := fresh "Hx" in
             pose proof (byte_bound a) as Hx;
             set (x := N_of_ascii a) in *; clearbody x
         end;
  zify; Z.to_euclidean_division_equations; lia.

Lemma b64decode_encode_step s :
  b64decode (Base64.b64encode s) = Some s /\
  (forall a, b64decode (Base64.b64encode (String a s)) = Some (String a s)) /\
  (forall a b,
     b64decode (Base64.b64encode (String a (String b s))) =
     Some (String a (String b s))).
Proof.
  induction s as [|c s (IH0 & IH1 & IH2)].
  - split; [done|]. split.
    + intros a. change (Base64.b64encode (String a "")) with
        (String (Base64.digit (N_of_ascii a / 4))
           (String (Base64.digit ((N_of_ascii a mod 4) * 16))
              (String Base64.pad (String Base64.pad "")))).
      rewrite b64decode_4, !digit_value_digit, digit_value_pad by byte_arith.
      cbv zeta. simpl.
      replace (_ + _)%N with (N_of_ascii a) by byte_arith.
      by rewrite ascii_N_embedding.
    + intros a b. change (Base64.b64encode (String a (String b ""))) with
        (String (Base64.digit (N_of_ascii a / 4))
           (String
              (Base64.digit ((N_of_ascii a mod 4) * 16 + N_of_ascii b / 16))
              (String (Base64.digit ((N_of_ascii b mod 16) * 4))
                 (String Base64.pad "")))).
      rewrite b64decode_4, !digit_value_digit, digit_value_pad by byte_arith.
      cbv zeta. simpl.
      replace (_ / 4 * 4 + _)%N with (N_of_ascii a) by byte_arith.
      replace (_ * 16 + _)%N with (N_of_ascii b) by byte_arith.
      by rewrite !ascii_N_embedding.
  - split; [apply IH1|]. split; [intros a; apply IH2|].
    intros a b.
    rewrite b64encode_3, b64decode_4, !digit_value_digit by byte_arith.
    cbv zeta. rewrite IH0. simpl.
    replace (_ / 4 * 4 + _)%N with (N_of_ascii a) by byte_arith.
    replace (_ * 16 + _)%N with (N_of_ascii b) by byte_arith.
    replace (_ * 64 + _)%N with (N_of_ascii c) by byte_arith.
    by rewrite !ascii_N_embedding.
Qed.

(** X18.  Encoding loses nothing: the payload of the store RPC determines
    the compressed bundle, two bundles with the same encoding are the
    same bundle. *)
Theorem b64encode_injective s1 s2 :
  Base64.b64encode s1 = Base64.b64encode s2 -> s1 = s2.
Proof.
  intros H.
  destruct (b64decode_encode_step s1) as [H1 _].
  destruct (b64decode_encode_step s2) as [H2 _].
  rewrite H, H2 in H1. by injection H1.
Qed.

Lemma b64encode_injective_witness : "Man" = "M" +:+ "an".
Proof.
  apply (b64encode_injective "Man" ("M" +:+ "an")).
  vm_compute. reflexivity.
Defined.

(** * The summary of [res_handler] *)

Lemma count_split results :
  count results 1 + count results 0 <= length results /\
  (Forall (fun r => r = 0%Z \/ r = 1%Z) results ->
   count results 1 + count results 0 = length results).
Proof.
  unfold count. induction results as [|r results [IHle IHeq]]; [done|].
  cbn [count_occ length].
  destruct (Z.eq_dec r 1%Z) as [H1|H1]; destruct (Z.eq_dec r 0%Z) as [H0|H0];
    try lia; (split; [lia|]); intros Hall;
    inversion_clear Hall as [|? ? Hr Hrest]; specialize (IHeq Hrest); lia.
Qed.

(** X19.  The two counts [res_handler] reports never exceed the number of
    results together, and when every result is 0 or 1 they add up to it:
    the line of the successful ones then shows the total less the failed
    ones. *)
Theorem res_handler_summary results :
  Forall (fun r => r = 0%Z \/ r = 1%Z) results ->
  let failed := count results 1 in
  let total := length results in
  failed <= total /\
  res_handler results =
    ["Finished processing and storing reports.";
     "Failed: " +:+ str failed +:+ "/" +:+ str total;
     "Successful " +:+ str (total - failed) +:+ "/" +:+ str total].
Proof.
  intros Hall. destruct (count_split results) as [Hle Heq].
  specialize (Heq Hall). simpl. split; [lia|].
  unfold res_handler.
  by replace (length results - count results 1) with (count results 0) by lia.
Qed.

Lemma res_handler_summary_witness :
  1 <= 3 /\
  res_handler [0; 1; 0]%Z =
    ["Finished processing and storing reports.";
     "Failed: 1/3"; "Successful 2/3"].
Proof.
  apply (res_handler_summary [0; 1; 0]%Z).
  repeat (constructor; [lia|]). constructor.
Defined.
